(** * Schnorr signatures over secp256k1

    A shallow embedding of [pySecp256k1/schnorr.py]: the BIP-340 signer and
    verifier ([sign], [verify]) and the bcrypto 4.10 variant
    ([bcrypto410_sign], [bcrypto410_verify]).

    The module starts with [from . import *]: the curve constants, the
    point arithmetic, the hash primitive, the byte codecs and the entropy
    source all come from the package's [__init__], which is not part of
    the file.  They are gathered in the class [Package]; the functions of
    [schnorr.py] are written once, over any package.  A package for the
    real curve and SHA-256 is built further down and used wherever a
    statement is about concrete byte strings. *)

From Bignums Require Import BigZ.
From Stdlib Require Import ZArith List Lia Bool.
From Stdlib.Strings Require Import Byte.
From Stdlib.Strings Require String.
Import String.StringSyntax.
Delimit Scope string_scope with string.
Import ListNotations.
Local Open Scope Z_scope.

(** ** Python values *)

Definition bytes := list byte.

(** The exceptions the module can end with.  [ValueError] is what the
    source raises on invalid input, [RuntimeError] what it raises on a zero
    nonce; [TypeError] is what Python raises when [None] is subscripted,
    read for an attribute or unpacked with [*]. *)
Inductive exn : Type :=
| ValueError
| RuntimeError
| TypeError.

Inductive result (A : Type) : Type :=
| Ok (a : A)
| Raise (e : exn).
Arguments Ok {A} a.
Arguments Raise {A} e.

Definition bind {A B : Type} (m : result A) (f : A -> result B) : result B :=
  match m with
  | Ok a => f a
  | Raise e => Raise e
  end.

Notation "x <- m ;; k" := (bind m (fun x => k))
  (at level 61, m at next level, right associativity).

(** The signers may draw from the operating system's entropy.  A run starts
    with the number of draws made so far and ends with a result and the
    number of draws made by then; an exception leaves the count where it
    was when it was raised. *)
Definition entropy := nat.
Definition M (A : Type) : Type := entropy -> result A * entropy.

Definition ret {A : Type} (a : A) : M A := fun ent => (Ok a, ent).
Definition raise {A : Type} (e : exn) : M A := fun ent => (Raise e, ent).
Definition lift {A : Type} (r : result A) : M A := fun ent => (r, ent).
Definition bindM {A B : Type} (m : M A) (f : A -> M B) : M B :=
  fun ent =>
    match m ent with
    | (Ok a, ent') => f a ent'
    | (Raise e, ent') => (Raise e, ent')
    end.

Notation "x <<- m ;; k" := (bindM m (fun x => k))
  (at level 61, m at next level, right associativity).

(** ** Byte codecs *)

Definition Z_of_byte (b : byte) : Z := Z.of_N (Byte.to_N b).

Definition byte_of_Z (z : Z) : byte :=
  match Byte.of_N (Z.to_N (z mod 256)) with
  | Some b => b
  | None => x00
  end.

(** Modelled from the spec: [int_from_bytes] of the package, the unsigned
    big-endian value of a buffer (section 4.1, fixed-width big-endian). *)
Definition int_from_bytes (b : bytes) : Z :=
  fold_left (fun acc x => acc * 256 + Z_of_byte x) b 0.

Fixpoint be_bytes (len : nat) (x : Z) : bytes :=
  match len with
  | O => []
  | S len' => be_bytes len' (x / 256) ++ [byte_of_Z x]
  end.

(** Modelled from the spec: [bytes_from_int] of the package, the 32-byte
    big-endian encoding.  Every integer the module encodes is a coordinate
    below [p], a scalar below [n] or a 32-byte draw; outside [0, 2^256) the
    model keeps the low 256 bits. *)
Definition bytes_from_int (x : Z) : bytes := be_bytes 32 x.

(** Modelled from the spec: [xor_bytes] of the package, the byte-wise
    exclusive or of section 4.4 ([t = d XOR taggedHash(aux)]). *)
Definition xor_bytes (b0 b1 : bytes) : bytes :=
  map (fun xy => byte_of_Z (Z.lxor (Z_of_byte (fst xy)) (Z_of_byte (snd xy))))
      (combine b0 b1).

(** ** The package namespace *)

(** An affine point [[x, y]]; [None] is the point at infinity, as in the
    source's [P is None] and [R is None]. *)
Abbreviation point := (Z * Z)%type (only parsing).

Class Package : Type := {
  (** field prime and group order *)
  p : Z;
  n : Z;
  n_pos : 0 < n;
  (** generator *)
  G : point;
  (** the 32-byte hash primitive *)
  hash_sha256 : bytes -> bytes;
  (** [+] and [*] of the points, and [point_mul] *)
  point_add : option point -> option point -> option point;
  point_mul : option point -> Z -> option point;
  (** square-root collaborators *)
  y_from_x : Z -> option Z;
  lift_x : bytes -> option point;
  is_quad : Z -> bool;
  (** SEC1 codec of the legacy variant *)
  encoded_from_point : option point -> bytes;
  PublicKey_decode : bytes -> result (option point);
  (** the value of the [i]-th call of [rand_k] *)
  urandom : nat -> Z
}.

Section Schnorr.

Context {pkg : Package}.

(** Modelled from the spec: [tagged_hash] of the package,
    [H(H(tag) || H(tag) || data)] (section 4.2). *)
Definition tagged_hash (tag : String.string) (msg : bytes) : bytes :=
  let tag_hash := hash_sha256 (String.list_byte_of_string tag) in
  hash_sha256 (tag_hash ++ tag_hash ++ msg).

(** Modelled from the spec: [has_even_y] of the package ([P.y] is even,
    section 4.3).  Reading a coordinate of [None] raises. *)
Definition has_even_y (P : option point) : result bool :=
  match P with
  | Some (_, y) => Ok (Z.even y)
  | None => Raise TypeError
  end.

(** [rand_k()]: one draw from the entropy source. *)
Definition rand_k : M Z := fun ent => (Ok (urandom ent), S ent).

(** [Point( *xy )]: the star unpacks its argument, which raises on [None];
    the constructor then returns an object, never [None]. *)
Definition Point_new (xy : option point) : result (option point) :=
  match xy with
  | Some P => Ok (Some P)
  | None => Raise TypeError
  end.

(** [R.x] and [R.y]. *)
Definition attr_x (R : option point) : result Z :=
  match R with
  | Some (x, _) => Ok x
  | None => Raise TypeError
  end.

Definition attr_y (R : option point) : result Z :=
  match R with
  | Some (_, y) => Ok y
  | None => Raise TypeError
  end.

(** *** schnorr.py *)

Definition bytes_from_point (P : option point) : result bytes :=
  match P with
  | Some (x, _) => Ok (bytes_from_int x)
  | None => Raise TypeError
  end.

(** [if not y] holds for [None] and for [0]. *)
Definition point_from_bytes (pubkeyB : bytes) : option point :=
  let x := int_from_bytes pubkeyB in
  match y_from_x x with
  | None => None
  | Some y => if y =? 0 then None else Some (x, y)
  end.

Definition bcrypto410_sign (msg seckey0 : bytes) : M bytes :=
  if negb (Nat.eqb (length msg) 32) then raise ValueError else
  let seckey := int_from_bytes seckey0 in
  if negb ((1 <=? seckey) && (seckey <=? n - 1)) then raise ValueError else
  let k0 := int_from_bytes (hash_sha256 (seckey0 ++ msg)) mod n in
  if k0 =? 0 then raise RuntimeError else
  let R := point_mul (Some G) k0 in
  Rx <<- lift (attr_x R);;
  let Rraw := bytes_from_int Rx in
  let e := int_from_bytes
             (hash_sha256
                (Rraw ++ encoded_from_point (point_mul (Some G) seckey) ++ msg))
           mod n in
  Ry <<- lift (attr_y R);;
  let k := if negb (is_quad Ry) then n - k0 else k0 in
  let s := (k + e * seckey) mod n in
  ret (Rraw ++ bytes_from_int s).

Definition bcrypto410_verify (msg pubkey sig : bytes) : result bool :=
  if negb (Nat.eqb (length msg) 32) then Raise ValueError else
  if negb (Nat.eqb (length sig) 64) then Raise ValueError else
  P <- PublicKey_decode pubkey;;
  let r := int_from_bytes (firstn 32 sig) in
  let s := int_from_bytes (skipn 32 sig) in
  if (p <=? r) || (n <=? s) then Ok false else
  let e := int_from_bytes (hash_sha256 (firstn 32 sig ++ pubkey ++ msg)) mod n in
  R <- Point_new (point_add (point_mul (Some G) s) (point_mul P (n - e)));;
  match R with
  | None => Ok false
  | Some _ =>
      Ry <- attr_y R;;
      if negb (is_quad Ry) then Ok false else
      Rx <- attr_x R;;
      if negb (Rx =? r) then Ok false else Ok true
  end.

(** Lines 132-133 of [sign]: the public point and the secret key with the
    sign that gives an even [y]. *)
Definition sign_keypair (seckey0 : Z) : result (Z * option point) :=
  let P := point_mul (Some G) seckey0 in
  even <- has_even_y P;;
  Ok (if even then seckey0 else n - seckey0, P).

(** Lines 135-145 of [sign]: the nonce scalar, from the normalised secret
    key, the encoded public point, the message and the auxiliary bytes. *)
Definition sign_nonce (seckey : Z) (Pb msg aux : bytes) : Z :=
  let t := xor_bytes (bytes_from_int seckey) (tagged_hash "BIP0340/aux"%string aux) in
  int_from_bytes (tagged_hash "BIP0340/nonce"%string (t ++ Pb ++ msg)) mod n.

Definition sign (msg seckey0 : bytes) (aux_rand : option bytes) : M bytes :=
  if negb (Nat.eqb (length msg) 32) then raise ValueError else
  let seckey0 := int_from_bytes seckey0 in
  if negb ((1 <=? seckey0) && (seckey0 <=? n - 1)) then raise ValueError else
  kp <<- lift (sign_keypair seckey0);;
  let seckey := fst kp in
  let P := snd kp in
  aux <<- match aux_rand with
          | None => k <<- rand_k;; ret (bytes_from_int k)
          | Some a => ret a
          end;;
  Pb <<- lift (bytes_from_point P);;
  let k0 := sign_nonce seckey Pb msg aux in
  if k0 =? 0 then raise RuntimeError else
  let R := point_mul (Some G) k0 in
  evenR <<- lift (has_even_y R);;
  let k := if negb evenR then n - k0 else k0 in
  r <<- lift (bytes_from_point R);;
  let e := int_from_bytes (tagged_hash "BIP0340/challenge"%string (r ++ Pb ++ msg))
           mod n in
  ret (r ++ bytes_from_int ((k + e * seckey) mod n)).

Definition verify (msg pubkey sig : bytes) : result bool :=
  if negb (Nat.eqb (length msg) 32) then Raise ValueError else
  if negb (Nat.eqb (length pubkey) 32) then Raise ValueError else
  if negb (Nat.eqb (length sig) 64) then Raise ValueError else
  match lift_x pubkey with
  | None => Ok false
  | Some P =>
      let r := int_from_bytes (firstn 32 sig) in
      let s := int_from_bytes (skipn 32 sig) in
      if (p <=? r) || (n <=? s) then Ok false else
      let e := int_from_bytes
                 (tagged_hash "BIP0340/challenge"%string (firstn 32 sig ++ pubkey ++ msg))
               mod n in
      R <- Point_new
             (point_add (point_mul (Some G) s) (point_mul (Some P) (n - e)));;
      match R with
      | None => Ok false
      | Some _ =>
          even <- has_even_y R;;
          if negb even then Ok false else
          Rx <- attr_x R;;
          if negb (Rx =? r) then Ok false else Ok true
      end
  end.

End Schnorr.

Arguments tagged_hash {pkg} tag%_string msg.

(** ** The collaborators on the real curve

    The package's [__init__] is not part of the file under study.  What
    follows models it from the specification: SHA-256 as the hash
    primitive and affine arithmetic on [y^2 = x^3 + 7] over a prime field.
    Python's integers are unbounded; the field arithmetic is run on
    [bigZ], machine-word trees, and converted at the boundary. *)

Module Sha256.

Definition mask32 : Z := 0xffffffff.
Definition add32 (a b : Z) : Z := Z.land (a + b) mask32.
Definition rotr (k x : Z) : Z :=
  Z.lor (Z.shiftr x k) (Z.land (Z.shiftl x (32 - k)) mask32).
Definition Ch (x y z : Z) : Z :=
  Z.lxor (Z.land x y) (Z.land (Z.lxor x mask32) z).
Definition Maj (x y z : Z) : Z :=
  Z.lxor (Z.lxor (Z.land x y) (Z.land x z)) (Z.land y z).
Definition bsig0 (x : Z) : Z := Z.lxor (Z.lxor (rotr 2 x) (rotr 13 x)) (rotr 22 x).
Definition bsig1 (x : Z) : Z := Z.lxor (Z.lxor (rotr 6 x) (rotr 11 x)) (rotr 25 x).
Definition ssig0 (x : Z) : Z := Z.lxor (Z.lxor (rotr 7 x) (rotr 18 x)) (Z.shiftr x 3).
Definition ssig1 (x : Z) : Z := Z.lxor (Z.lxor (rotr 17 x) (rotr 19 x)) (Z.shiftr x 10).

(** The round constants are the first 32 bits of the fractional parts of
    the cube roots of the first 64 primes, the initial state those of the
    square roots of the first 8. *)
Definition is_prime (q : Z) : bool :=
  forallb (fun d => negb (q mod d =? 0))
          (map (fun i => 2 + Z.of_nat i) (seq 0 (Z.to_nat (q - 2)))).

Definition primes : list Z :=
  filter is_prime (map (fun i => 2 + Z.of_nat i) (seq 0 310)).

(** Integer cube root, one bit at a time from bit [bits - 1] down. *)
Fixpoint icbrt (bits : nat) (x r : Z) : Z :=
  match bits with
  | O => r
  | S bits' =>
      let r' := r + 2 ^ Z.of_nat bits' in
      icbrt bits' x (if r' * r' * r' <=? x then r' else r)
  end.

Definition K : list Z :=
  Eval vm_compute in
    map (fun q => Z.land (icbrt 40 (q * 2 ^ 96) 0) mask32) (firstn 64 primes).

(** The first [k] big-endian 32-bit words of a buffer. *)
Fixpoint words (k : nat) (b : bytes) : list Z :=
  match k with
  | O => []
  | S k' => int_from_bytes (firstn 4 b) :: words k' (skipn 4 b)
  end.

(** Message schedule; [w] holds the words computed so far, latest first. *)
Fixpoint schedule (k : nat) (w : list Z) : list Z :=
  match k with
  | O => w
  | S k' =>
      let wt := add32 (add32 (ssig1 (nth 1 w 0)) (nth 6 w 0))
                      (add32 (ssig0 (nth 14 w 0)) (nth 15 w 0)) in
      schedule k' (wt :: w)
  end.

Definition state : Type := (Z * Z * Z * Z * Z * Z * Z * Z)%type.

Definition H0 : state :=
  Eval vm_compute in
    match map (fun q => Z.land (Z.sqrt (q * 2 ^ 64)) mask32) (firstn 8 primes)
    with
    | [a; b; c; d; e; f; g; h] => (a, b, c, d, e, f, g, h)
    | _ => (0, 0, 0, 0, 0, 0, 0, 0)
    end.

Definition round (s : state) (kw : Z * Z) : state :=
  let '(a, b, c, d, e, f, g, h) := s in
  let t1 := add32 (add32 (add32 (add32 h (bsig1 e)) (Ch e f g)) (fst kw)) (snd kw) in
  let t2 := add32 (bsig0 a) (Maj a b c) in
  (add32 t1 t2, a, b, c, add32 d t1, e, f, g).

Definition compress (s : state) (block : bytes) : state :=
  let w := rev (schedule 48 (rev (words 16 block))) in
  let '(a, b, c, d, e, f, g, h) := s in
  let '(a', b', c', d', e', f', g', h') := fold_left round (combine K w) s in
  (add32 a a', add32 b b', add32 c c', add32 d d',
   add32 e e', add32 f f', add32 g g', add32 h h').

Definition pad (msg : bytes) : bytes :=
  let l := Z.of_nat (length msg) in
  msg ++ [x80] ++ repeat x00 (Z.to_nat ((55 - l) mod 64)) ++ be_bytes 8 (8 * l).

Fixpoint blocks (fuel : nat) (b : bytes) : list bytes :=
  match fuel with
  | O => []
  | S fuel' =>
      match b with
      | [] => []
      | _ => firstn 64 b :: blocks fuel' (skipn 64 b)
      end
  end.

Definition sha256 (msg : bytes) : bytes :=
  let padded := pad msg in
  let '(a, b, c, d, e, f, g, h) :=
    fold_left compress (blocks (length padded) padded) H0 in
  concat (map (be_bytes 4) [a; b; c; d; e; f; g; h]).

End Sha256.

(** Upper-case hexadecimal rendering of a buffer, to compare with printed
    test vectors. *)
Definition hex_digit (z : Z) : Ascii.ascii :=
  nth (Z.to_nat z)
      (String.list_ascii_of_string "0123456789ABCDEF"%string) Ascii.zero.

Fixpoint hex_of_bytes (b : bytes) : String.string :=
  match b with
  | [] => String.EmptyString
  | x :: b' =>
      String.String (hex_digit (Z_of_byte x / 16))
        (String.String (hex_digit (Z_of_byte x mod 16)) (hex_of_bytes b'))
  end.


Module Curve.

Section Field.

(** The field prime. *)
Variable q : bigZ.

(** Extended Euclid: the coefficient of [r1] in the last non-zero
    remainder of [r0, r1]. *)
Fixpoint egcd (fuel : nat) (r0 r1 s0 s1 : bigZ) : bigZ :=
  match fuel with
  | O => s0
  | S fuel' =>
      if BigZ.eqb r1 0 then s0
      else
        let d := BigZ.div r0 r1 in
        egcd fuel' r1 (BigZ.sub r0 (BigZ.mul d r1)) s1 (BigZ.sub s0 (BigZ.mul d s1))
  end.

(** Inverse modulo [q]; 512 steps are enough below [2^256]. *)
Definition inv (a : bigZ) : bigZ :=
  BigZ.modulo (egcd 512 q (BigZ.modulo a q) 0 1) q.

Definition mulm (a b : bigZ) : bigZ := BigZ.modulo (BigZ.mul a b) q.

(** [pow(b, e, q)] *)
Fixpoint powm (b : bigZ) (e : positive) : bigZ :=
  match e with
  | xH => BigZ.modulo b q
  | xO e' => let h := powm b e' in mulm h h
  | xI e' => let h := powm b e' in mulm (mulm h h) b
  end.

Definition bpoint : Type := (bigZ * bigZ)%type.

(** Chord and tangent addition; [None] is the neutral element. *)
Definition add (P1 P2 : option bpoint) : option bpoint :=
  match P1, P2 with
  | None, _ => P2
  | _, None => P1
  | Some (x1, y1), Some (x2, y2) =>
      if BigZ.eqb x1 x2 && negb (BigZ.eqb y1 y2) then None
      else
        let lam :=
          if BigZ.eqb x1 x2
          then mulm (BigZ.mul 3 (BigZ.mul x1 x1)) (inv (BigZ.mul 2 y1))
          else mulm (BigZ.sub y2 y1) (inv (BigZ.sub x2 x1)) in
        let x3 := BigZ.modulo (BigZ.sub (BigZ.sub (BigZ.mul lam lam) x1) x2) q in
        Some (x3, BigZ.modulo (BigZ.sub (BigZ.mul lam (BigZ.sub x1 x3)) y1) q)
  end.

(** Double and add, most significant bit first. *)
Fixpoint mul (P : option bpoint) (k : positive) : option bpoint :=
  match k with
  | xH => P
  | xO k' => let Q := mul P k' in add Q Q
  | xI k' => let Q := mul P k' in add (add Q Q) P
  end.

End Field.

Definition of_point (P : option point) : option bpoint :=
  match P with
  | Some (x, y) => Some (BigZ.of_Z x, BigZ.of_Z y)
  | None => None
  end.

Definition to_point (P : option bpoint) : option point :=
  match P with
  | Some (x, y) => Some (BigZ.to_Z x, BigZ.to_Z y)
  | None => None
  end.

Section Collaborators.

(** Field prime, as the package's [p]. *)
Variable fp : Z.

(** Modelled from the spec: [point_add] of the package, the group law of
    the curve (section 3, a point or the point at infinity). *)
Definition point_add (P1 P2 : option point) : option point :=
  to_point (add (BigZ.of_Z fp) (of_point P1) (of_point P2)).

(** Modelled from the spec: [point_mul] of the package and the [*] of its
    points, the scalar multiple; the multiple by [0] is the point at
    infinity.  The module only passes scalars that are not negative. *)
Definition point_mul (P : option point) (k : Z) : option point :=
  match k with
  | Zpos k' => to_point (mul (BigZ.of_Z fp) (of_point P) k')
  | _ => None
  end.

(** Modelled from the spec: [y_from_x] of the package, a [y] with [(x, y)]
    on [y^2 = x^3 + 7], by the square-root test of section 4.1; the
    exponent [(p + 1) / 4] gives the root when [p] is 3 modulo 4. *)
Definition y_from_x (x : Z) : option Z :=
  let q := BigZ.of_Z fp in
  let bx := BigZ.of_Z x in
  let y_sq := BigZ.modulo (BigZ.add (mulm q (mulm q bx bx) bx) 7) q in
  match (fp + 1) / 4 with
  | Zpos e =>
      let y := powm q y_sq e in
      if BigZ.eqb (mulm q y y) y_sq then Some (BigZ.to_Z y) else None
  | _ => None
  end.

(** Modelled from the spec: [lift_x] of the package, as [point_from_bytes]
    but with the even one of the two [y] (section 4.1). *)
Definition lift_x (b : bytes) : option point :=
  let x := int_from_bytes b in
  match y_from_x x with
  | None => None
  | Some y => Some (x, if Z.even y then y else fp - y)
  end.

(** Modelled from the spec: [is_quad] of the package, the is-square test
    of section 4.7, by Euler's criterion. *)
Definition is_quad (y : Z) : bool :=
  match (fp - 1) / 2 with
  | Zpos e => BigZ.eqb (powm (BigZ.of_Z fp) (BigZ.of_Z y) e) 1
  | _ => false
  end.

(** Modelled from the spec: [encoded_from_point] of the package, the SEC1
    compressed encoding of section 3 (the parity of [y], then [x]). *)
Definition encoded_from_point (P : option point) : bytes :=
  match P with
  | Some (x, y) => (if Z.even y then x02 else x03) :: bytes_from_int x
  | None => [x00]
  end.

(** Modelled from the spec: [PublicKey.decode] of the package, the
    decoder of the 33-byte compressed and 65-byte uncompressed SEC1
    encodings of section 3.  The specification does not say what the
    decoder does with any other buffer; this one raises [ValueError]. *)
Definition PublicKey_decode (b : bytes) : result (option point) :=
  match b with
  | x02 :: xb =>
      if Nat.eqb (length xb) 32 then
        match y_from_x (int_from_bytes xb) with
        | Some y => Ok (Some (int_from_bytes xb, if Z.even y then y else fp - y))
        | None => Raise ValueError
        end
      else Raise ValueError
  | x03 :: xb =>
      if Nat.eqb (length xb) 32 then
        match y_from_x (int_from_bytes xb) with
        | Some y => Ok (Some (int_from_bytes xb, if Z.even y then fp - y else y))
        | None => Raise ValueError
        end
      else Raise ValueError
  | x04 :: xy =>
      if Nat.eqb (length xy) 64 then
        Ok (Some (int_from_bytes (firstn 32 xy), int_from_bytes (skipn 32 xy)))
      else Raise ValueError
  | _ => Raise ValueError
  end.

End Collaborators.

End Curve.

(** A package from a field prime, a group order, a generator, a hash
    primitive and the values the entropy source will return. *)
Definition curve_package (fp order : Z) (order_pos : 0 < order) (gen : point)
    (hash : bytes -> bytes) (draws : nat -> Z) : Package :=
  {| p := fp;
     n := order;
     n_pos := order_pos;
     G := gen;
     hash_sha256 := hash;
     point_add := Curve.point_add fp;
     point_mul := Curve.point_mul fp;
     y_from_x := Curve.y_from_x fp;
     lift_x := Curve.lift_x fp;
     is_quad := Curve.is_quad fp;
     encoded_from_point := Curve.encoded_from_point;
     PublicKey_decode := Curve.PublicKey_decode fp;
     urandom := draws |}.

(** Modelled from the spec: the constants [p], [n] and [G] of the package,
    those of secp256k1 (glossary). *)
Definition secp256k1_p : Z :=
  0xFFFFFFFFFFFFFFFFFFFFFFFFFFFFFFFFFFFFFFFFFFFFFFFFFFFFFFFEFFFFFC2F.
Definition secp256k1_n : Z :=
  0xFFFFFFFFFFFFFFFFFFFFFFFFFFFFFFFEBAAEDCE6AF48A03BBFD25E8CD0364141.
Definition secp256k1_G : point :=
  (0x79BE667EF9DCBBAC55A06295CE870B07029BFCDB2DCE28D959F2815B16F81798,
   0x483ADA7726A3C4655DA4FBFC0E1108A8FD17B448A68554199C47D08FFB10D4B8).

(** The package on the real curve with SHA-256. *)
Definition secp256k1 (draws : nat -> Z) : Package :=
  curve_package secp256k1_p secp256k1_n eq_refl secp256k1_G Sha256.sha256 draws.

(** The real curve with a hash primitive that returns 32 zero bytes: the
    only way to exhibit a zero nonce. *)
Definition secp256k1_zero_hash (draws : nat -> Z) : Package :=
  curve_package secp256k1_p secp256k1_n eq_refl secp256k1_G
                (fun _ => repeat x00 32) draws.

(** The curve [y^2 = x^3 + 7] over the field of 43 elements: 31 points, a
    group of prime order generated by [(2, 12)]. *)
Definition toy (draws : nat -> Z) : Package :=
  curve_package 43 31 eq_refl (2, 12) Sha256.sha256 draws.

(** ** Test vectors *)

Definition zeros32 : bytes := repeat x00 32.

(** Vector 0 of BIP-340: secret key 3, zero message, zero auxiliary
    randomness. *)
Definition vector0_seckey : bytes := bytes_from_int 3.
Definition vector0_pubkey : bytes :=
  bytes_from_int
    0xF9308A019258C31049344F85F89D5229B531C845836F99B08601F113BCE036F9.
Definition vector0_sig : bytes :=
  bytes_from_int
    0xE907831F80848D1069A5371B402410364BDF1C5F8307B0084C55F1CE2DCA8215
  ++ bytes_from_int
       0x25F66A4A85EA8B71E482A74F382D2CE5EBEEE8FDB2172F477DF4900D310536C0.

(** The x-only and the compressed encoding of the generator. *)
Definition G_xonly : bytes := bytes_from_int (fst secp256k1_G).
Definition G_sec1 : bytes := x02 :: G_xonly.

(** Signatures [r || s] with [r = 0] and [s] chosen so that
    [G * s + P * (n - e)] is the point at infinity: [s = e * d mod n] for
    the challenge [e] of the signature and the secret key [d] of [P].
    For the generator as public key ([d = 1]), under the BIP-340 and the
    bcrypto 4.10 challenge; for the public key of vector 0 ([d = 3]). *)
Definition infinity_s : Z :=
  0xCACF7BCE81D8A36992A1CEC7955E755E1D1764AADEF3A09E4EE3DDA38E6A12E2.
Definition infinity_sig : bytes := zeros32 ++ bytes_from_int infinity_s.

Definition infinity_s_legacy : Z :=
  0xA988B9617E7F034EDCBB3ED041250A57D5EBEB106B5523C0F26358AD676D11BF.
Definition infinity_sig_legacy : bytes :=
  zeros32 ++ bytes_from_int infinity_s_legacy.

Definition infinity_e_vector0 : Z :=
  0xC279853D44BD05370A35B8CDC3BB089771396CDFA77730419A779D3D0A58A763.
Definition infinity_s_vector0 : Z :=
  0x476C8FB7CE370FA51EA12A694B3119C8DE4E8CD197D4504D4FC21A9D7E9D73A7.
Definition infinity_sig_vector0 : bytes :=
  zeros32 ++ bytes_from_int infinity_s_vector0.

(** A signature with [r = p]. *)
Definition out_of_range_sig : bytes := bytes_from_int secp256k1_p ++ zeros32.

(** Secret keys 3 and 31 - 3 on the small curve. *)
Definition toy_seckey : bytes := bytes_from_int 3.
Definition toy_seckey_opp : bytes := bytes_from_int 28.

(** An x-coordinate with no point on the curve (vector 5 of BIP-340). *)
Definition off_curve_pubkey : bytes :=
  bytes_from_int
    0xEEFDEA4CDB677750A420FEE807EACF21EB9898AE79B9768766E4FAA04A2D4A34.

(** The same x-coordinate in a 33-byte compressed encoding. *)
Definition off_curve_sec1 : bytes := x02 :: off_curve_pubkey.

(** Auxiliary buffers that are not 32 bytes long. *)
Definition short_aux : bytes := [x01; x02; x03].

(** ** Vocabulary of the statements *)

(** The nonce scalar [k0] of a run of [sign] on a secret key of value
    [seckey0]: lines 132-145 up to the test [k0 == 0]. *)
Definition sign_k0 {pkg : Package} (msg : bytes) (seckey0 : Z) (aux : bytes)
  : result Z :=
  kp <- sign_keypair seckey0;;
  Pb <- bytes_from_point (snd kp);;
  Ok (sign_nonce (fst kp) Pb msg aux).

(** The nonce scalar of a run of [bcrypto410_sign], line 63. *)
Definition bcrypto410_k0 {pkg : Package} (msg seckey0 : bytes) : Z :=
  int_from_bytes (hash_sha256 (seckey0 ++ msg)) mod n.

(** The auxiliary bytes a run of [sign] hashes: the caller's, or one draw. *)
Definition sign_aux {pkg : Package} (aux_rand : option bytes) (ent : entropy)
  : bytes :=
  match aux_rand with
  | Some a => a
  | None => bytes_from_int (urandom ent)
  end.

(** The entropy count after a run of [sign] that got as far as the nonce. *)
Definition sign_draws (aux_rand : option bytes) (ent : entropy) : entropy :=
  match aux_rand with
  | Some _ => ent
  | None => S ent
  end.

(** The same package with another decoder of public keys. *)
Definition with_decoder (pkg : Package)
    (decode : bytes -> result (option (Z * Z))) : Package :=
  {| p := p;
     n := n;
     n_pos := n_pos;
     G := G;
     hash_sha256 := hash_sha256;
     point_add := point_add;
     point_mul := point_mul;
     y_from_x := y_from_x;
     lift_x := lift_x;
     is_quad := is_quad;
     encoded_from_point := encoded_from_point;
     PublicKey_decode := decode;
     urandom := urandom |}.

(** The same package with another entropy source. *)
Definition with_urandom (pkg : Package) (draws : nat -> Z) : Package :=
  {| p := p;
     n := n;
     n_pos := n_pos;
     G := G;
     hash_sha256 := hash_sha256;
     point_add := point_add;
     point_mul := point_mul;
     y_from_x := y_from_x;
     lift_x := lift_x;
     is_quad := is_quad;
     encoded_from_point := encoded_from_point;
     PublicKey_decode := PublicKey_decode;
     urandom := draws |}.

(** What the module relies on from the curve collaborator: the multiples of
    [G] form a group of order [n] of points with coordinates below [p], no
    point has [y = 0], negation flips [y], and [lift_x] finds the point
    with even [y]. *)
Class CurveLaws {pkg : Package} : Prop := {
  p_odd : Z.odd p = true;
  p_bound : p <= 2 ^ 256;
  n_bound : n <= 2 ^ 256;
  G_mul_finite : forall k, 0 < k < n ->
    exists x y, point_mul (Some G) k = Some (x, y) /\ 0 <= x < p /\ 0 < y < p;
  G_mul_opp : forall k x y, 0 < k < n ->
    point_mul (Some G) k = Some (x, y) ->
    point_mul (Some G) (n - k) = Some (x, p - y);
  G_mul_add : forall a b, 0 <= a < n -> 0 <= b < n ->
    point_add (point_mul (Some G) a) (point_mul (Some G) b)
    = point_mul (Some G) ((a + b) mod n);
  G_mul_mul : forall d k, 0 < d < n -> 0 <= k <= n ->
    point_mul (point_mul (Some G) d) k = point_mul (Some G) ((d * k) mod n);
  lift_x_even : forall k x y, 0 < k < n ->
    point_mul (Some G) k = Some (x, y) -> Z.even y = true ->
    lift_x (bytes_from_int x) = Some (x, y)
}.

(** Decision procedures for the laws on a small curve. *)
Definition Zrange (lo : Z) (len : nat) : list Z :=
  map (fun i => lo + Z.of_nat i) (seq 0 len).

Definition point_eqb (P Q : option point) : bool :=
  match P, Q with
  | None, None => true
  | Some (a, b), Some (c, d) => (a =? c) && (b =? d)
  | _, _ => false
  end.

Definition check_finite {pkg : Package} (k : Z) : bool :=
  match point_mul (Some G) k with
  | Some (x, y) => (0 <=? x) && (x <? p) && (0 <? y) && (y <? p)
  | None => false
  end.

Definition check_opp {pkg : Package} (k : Z) : bool :=
  match point_mul (Some G) k with
  | Some (x, y) => point_eqb (point_mul (Some G) (n - k)) (Some (x, p - y))
  | None => false
  end.

Definition check_add {pkg : Package} (a b : Z) : bool :=
  point_eqb (point_add (point_mul (Some G) a) (point_mul (Some G) b))
            (point_mul (Some G) ((a + b) mod n)).

Definition check_mul {pkg : Package} (d k : Z) : bool :=
  point_eqb (point_mul (point_mul (Some G) d) k)
            (point_mul (Some G) ((d * k) mod n)).

Definition check_lift {pkg : Package} (k : Z) : bool :=
  match point_mul (Some G) k with
  | Some (x, y) =>
      if Z.even y then point_eqb (lift_x (bytes_from_int x)) (Some (x, y))
      else true
  | None => true
  end.

(** What the bcrypto 4.10 variant relies on besides: the decoder returns
    the point that [encoded_from_point] encoded, and of a [y] and its
    opposite exactly one is a square. *)
Class LegacyLaws {pkg : Package} : Prop := {
  decode_encoded : forall d, 0 < d < n ->
    PublicKey_decode (encoded_from_point (point_mul (Some G) d))
    = Ok (point_mul (Some G) d);
  is_quad_opp : forall k x y, 0 < k < n ->
    point_mul (Some G) k = Some (x, y) ->
    is_quad (p - y) = negb (is_quad y)
}.

Definition check_decode {pkg : Package} (d : Z) : bool :=
  match PublicKey_decode (encoded_from_point (point_mul (Some G) d)) with
  | Ok Q => point_eqb Q (point_mul (Some G) d)
  | Raise _ => false
  end.

Definition check_quad {pkg : Package} (k : Z) : bool :=
  match point_mul (Some G) k with
  | Some (x, y) => Bool.eqb (is_quad (p - y)) (negb (is_quad y))
  | None => true
  end.

(** * Properties *)

Example sha256_constants :
  length Sha256.K = 64%nat
  /\ nth 0 Sha256.K 0 = 0x428a2f98
  /\ nth 63 Sha256.K 0 = 0xc67178f2
  /\ snd Sha256.H0 = 0x5be0cd19.
Proof. repeat split. Qed.

Example sha256_abc :
  hex_of_bytes (Sha256.sha256 (String.list_byte_of_string "abc"%string))
  = "BA7816BF8F01CFEA414140DE5DAE2223B00361A396177A9CB410FF61F20015AD"%string.
Proof. vm_compute. reflexivity. Qed.

(** ** Codec lemmas *)

Lemma Z_of_byte_range (b : byte) : 0 <= Z_of_byte b < 256.
Proof.
  unfold Z_of_byte. pose proof (Byte.to_N_bounded b). lia.
Qed.

Lemma Z_of_byte_of_Z (z : Z) : Z_of_byte (byte_of_Z z) = z mod 256.
Proof.
  unfold byte_of_Z, Z_of_byte.
  pose proof (Z.mod_pos_bound z 256 ltac:(lia)) as Hb.
  destruct (Byte.of_N (Z.to_N (z mod 256))) as [b|] eqn:E.
  - apply Byte.to_of_N in E. rewrite E. lia.
  - apply Byte.of_N_None_iff in E. lia.
Qed.

Lemma be_bytes_length (k : nat) (x : Z) : length (be_bytes k x) = k.
Proof.
  revert x. induction k as [|k IH]; intros x; simpl.
  - reflexivity.
  - rewrite length_app, IH. simpl. lia.
Qed.

Lemma bytes_from_int_length (x : Z) : length (bytes_from_int x) = 32%nat.
Proof. apply be_bytes_length. Qed.

Lemma int_from_bytes_snoc (a : bytes) (b : byte) :
  int_from_bytes (a ++ [b]) = int_from_bytes a * 256 + Z_of_byte b.
Proof.
  unfold int_from_bytes. rewrite fold_left_app. reflexivity.
Qed.

Lemma int_from_be_bytes (k : nat) (x : Z) :
  int_from_bytes (be_bytes k x) = x mod 256 ^ Z.of_nat k.
Proof.
  revert x. induction k as [|k IH]; intros x.
  - simpl. rewrite Z.mod_1_r. reflexivity.
  - cbn [be_bytes]. rewrite int_from_bytes_snoc, IH, Z_of_byte_of_Z.
    rewrite Nat2Z.inj_succ, Z.pow_succ_r by lia.
    assert (Hk : 0 < 256 ^ Z.of_nat k) by (apply Z.pow_pos_nonneg; lia).
    rewrite (Z.rem_mul_r x 256 (256 ^ Z.of_nat k)) by lia.
    lia.
Qed.

Lemma int_from_bytes_from_int (x : Z) :
  0 <= x < 2 ^ 256 -> int_from_bytes (bytes_from_int x) = x.
Proof.
  intros Hx. unfold bytes_from_int. rewrite int_from_be_bytes.
  change (256 ^ Z.of_nat 32) with (2 ^ 256). apply Z.mod_small. exact Hx.
Qed.

Lemma firstn_bytes_from_int (x : Z) (b : bytes) :
  firstn 32 (bytes_from_int x ++ b) = bytes_from_int x.
Proof.
  rewrite firstn_app, bytes_from_int_length, Nat.sub_diag, firstn_O, app_nil_r.
  apply firstn_all2. rewrite bytes_from_int_length. lia.
Qed.

Lemma skipn_bytes_from_int (x : Z) (b : bytes) :
  skipn 32 (bytes_from_int x ++ b) = b.
Proof.
  rewrite skipn_app, bytes_from_int_length, Nat.sub_diag, skipn_O.
  rewrite skipn_all2 by (rewrite bytes_from_int_length; lia). reflexivity.
Qed.

(** ** Exceptions and the two monads *)

Lemma Point_new_not_None (xy : option point) : Point_new xy <> Ok None.
Proof. destruct xy; discriminate. Qed.

Section Properties.

Context {pkg : Package}.

(** *** The verifier, step by step *)

Lemma verify_bad_length (msg pubkey sig : bytes) :
  length msg <> 32%nat \/ length pubkey <> 32%nat \/ length sig <> 64%nat ->
  verify msg pubkey sig = Raise ValueError.
Proof.
  intros H. unfold verify.
  destruct (Nat.eqb (length msg) 32) eqn:Em; [|reflexivity].
  destruct (Nat.eqb (length pubkey) 32) eqn:Ep; [|reflexivity].
  destruct (Nat.eqb (length sig) 64) eqn:Es; [|reflexivity].
  apply Nat.eqb_eq in Em, Ep, Es. tauto.
Qed.

Lemma verify_good_length (msg pubkey sig : bytes) :
  length msg = 32%nat -> length pubkey = 32%nat -> length sig = 64%nat ->
  verify msg pubkey sig =
  match lift_x pubkey with
  | None => Ok false
  | Some P =>
      let r := int_from_bytes (firstn 32 sig) in
      let s := int_from_bytes (skipn 32 sig) in
      if (p <=? r) || (n <=? s) then Ok false else
      let e := int_from_bytes
                 (tagged_hash "BIP0340/challenge" (firstn 32 sig ++ pubkey ++ msg))
               mod n in
      match point_add (point_mul (Some G) s) (point_mul (Some P) (n - e)) with
      | None => Raise TypeError
      | Some (Rx, Ry) => Ok (Z.even Ry && (Rx =? r))
      end
  end.
Proof.
  intros Hm Hp Hs. unfold verify. rewrite Hm, Hp, Hs. simpl.
  destruct (lift_x pubkey) as [P|]; [|reflexivity].
  destruct ((p <=? _) || (n <=? _)); [reflexivity|].
  destruct (point_add _ _) as [[Rx Ry]|]; [|reflexivity].
  simpl. destruct (Z.even Ry); simpl; [|reflexivity].
  destruct (Rx =? _); reflexivity.
Qed.

Lemma bcrypto410_verify_bad_length (msg pubkey sig : bytes) :
  length msg <> 32%nat \/ length sig <> 64%nat ->
  bcrypto410_verify msg pubkey sig = Raise ValueError.
Proof.
  intros H. unfold bcrypto410_verify.
  destruct (Nat.eqb (length msg) 32) eqn:Em; [|reflexivity].
  destruct (Nat.eqb (length sig) 64) eqn:Es; [|reflexivity].
  apply Nat.eqb_eq in Em, Es. tauto.
Qed.

Lemma bcrypto410_verify_good_length (msg pubkey sig : bytes) :
  length msg = 32%nat -> length sig = 64%nat ->
  bcrypto410_verify msg pubkey sig =
  match PublicKey_decode pubkey with
  | Raise e => Raise e
  | Ok P =>
      let r := int_from_bytes (firstn 32 sig) in
      let s := int_from_bytes (skipn 32 sig) in
      if (p <=? r) || (n <=? s) then Ok false else
      let e := int_from_bytes (hash_sha256 (firstn 32 sig ++ pubkey ++ msg))
               mod n in
      match point_add (point_mul (Some G) s) (point_mul P (n - e)) with
      | None => Raise TypeError
      | Some (Rx, Ry) => Ok (is_quad Ry && (Rx =? r))
      end
  end.
Proof.
  intros Hm Hs. unfold bcrypto410_verify. rewrite Hm, Hs. simpl.
  destruct (PublicKey_decode pubkey) as [P|e]; [|reflexivity]. simpl.
  destruct ((p <=? _) || (n <=? _)); [reflexivity|].
  destruct (point_add _ _) as [[Rx Ry]|]; [|reflexivity].
  simpl. destruct (is_quad Ry); simpl; [|reflexivity].
  destruct (Rx =? _); reflexivity.
Qed.

(** On well-lengthed input [verify] never raises [ValueError]; it raises
    at all only when [G * s + P * (n - e)] is the point at infinity, where
    the star of [Point( *xy )] meets [None] before [R is None] is asked. *)
Lemma verify_ValueError_iff (msg pubkey sig : bytes) :
  verify msg pubkey sig = Raise ValueError
  <-> (length msg <> 32%nat \/ length pubkey <> 32%nat
       \/ length sig <> 64%nat).
Proof.
  split; [|apply verify_bad_length].
  intros H.
  destruct (Nat.eq_dec (length msg) 32) as [Hm|Hm]; [|tauto].
  destruct (Nat.eq_dec (length pubkey) 32) as [Hp|Hp]; [|tauto].
  destruct (Nat.eq_dec (length sig) 64) as [Hs|Hs]; [|tauto].
  exfalso. rewrite (verify_good_length _ _ _ Hm Hp Hs) in H.
  destruct (lift_x pubkey); [|discriminate].
  cbv zeta in H. destruct (_ || _); [discriminate|].
  destruct (point_add _ _) as [[Rx Ry]|]; discriminate.
Qed.

Lemma verify_lift_x_fails (msg pubkey sig : bytes) :
  length msg = 32%nat -> length pubkey = 32%nat -> length sig = 64%nat ->
  lift_x pubkey = None ->
  verify msg pubkey sig = Ok false.
Proof.
  intros Hm Hp Hs HP. rewrite (verify_good_length _ _ _ Hm Hp Hs), HP.
  reflexivity.
Qed.

Lemma verify_finite_R (msg pubkey sig : bytes) (P : point) (Rx Ry : Z) :
  length msg = 32%nat -> length pubkey = 32%nat -> length sig = 64%nat ->
  lift_x pubkey = Some P ->
  int_from_bytes (firstn 32 sig) < p ->
  int_from_bytes (skipn 32 sig) < n ->
  point_add
    (point_mul (Some G) (int_from_bytes (skipn 32 sig)))
    (point_mul (Some P)
       (n - int_from_bytes
              (tagged_hash "BIP0340/challenge"
                 (firstn 32 sig ++ pubkey ++ msg)) mod n))
  = Some (Rx, Ry) ->
  verify msg pubkey sig
  = Ok (Z.even Ry && (Rx =? int_from_bytes (firstn 32 sig))).
Proof.
  intros Hm Hp Hs HP Hr Hsn HR.
  rewrite (verify_good_length _ _ _ Hm Hp Hs), HP. cbv zeta.
  destruct (Z.leb_spec p (int_from_bytes (firstn 32 sig))); [lia|].
  destruct (Z.leb_spec n (int_from_bytes (skipn 32 sig))); [lia|].
  cbn [orb]. rewrite HR. reflexivity.
Qed.

Lemma verify_infinite_R (msg pubkey sig : bytes) (P : point) :
  length msg = 32%nat -> length pubkey = 32%nat -> length sig = 64%nat ->
  lift_x pubkey = Some P ->
  int_from_bytes (firstn 32 sig) < p ->
  int_from_bytes (skipn 32 sig) < n ->
  point_add
    (point_mul (Some G) (int_from_bytes (skipn 32 sig)))
    (point_mul (Some P)
       (n - int_from_bytes
              (tagged_hash "BIP0340/challenge"
                 (firstn 32 sig ++ pubkey ++ msg)) mod n))
  = None ->
  verify msg pubkey sig = Raise TypeError.
Proof.
  intros Hm Hp Hs HP Hr Hsn HR.
  rewrite (verify_good_length _ _ _ Hm Hp Hs), HP. cbv zeta.
  destruct (Z.leb_spec p (int_from_bytes (firstn 32 sig))); [lia|].
  destruct (Z.leb_spec n (int_from_bytes (skipn 32 sig))); [lia|].
  cbn [orb]. rewrite HR. reflexivity.
Qed.

(** *** The signers, step by step *)

Lemma bindM_lift_Ok {A B : Type} (a : A) (k : A -> M B) (ent : entropy) :
  bindM (lift (Ok a)) k ent = k a ent.
Proof. reflexivity. Qed.

Lemma bindM_run {A B : Type} (m : M A) (k : A -> M B) (a : A)
    (ent ent' : entropy) :
  m ent = (Ok a, ent') -> bindM m k ent = k a ent'.
Proof. intros H. unfold bindM. rewrite H. reflexivity. Qed.

Lemma sign_aux_run (aux_rand : option bytes) (ent : entropy) :
  (match aux_rand with
   | None => k <<- rand_k;; ret (bytes_from_int k)
   | Some a => ret a
   end) ent = (Ok (sign_aux aux_rand ent), sign_draws aux_rand ent).
Proof. destruct aux_rand; reflexivity. Qed.

Lemma key_range_test (d : Z) :
  negb ((1 <=? d) && (d <=? n - 1)) = false <-> 1 <= d <= n - 1.
Proof.
  rewrite negb_false_iff, andb_true_iff, !Z.leb_le. tauto.
Qed.

Lemma sign_bad_length (msg seckey0 : bytes) (aux_rand : option bytes)
    (ent : entropy) :
  length msg <> 32%nat -> sign msg seckey0 aux_rand ent = (Raise ValueError, ent).
Proof.
  intros H. unfold sign. apply Nat.eqb_neq in H. rewrite H. reflexivity.
Qed.

Lemma sign_bad_key (msg seckey0 : bytes) (aux_rand : option bytes)
    (ent : entropy) :
  ~ 1 <= int_from_bytes seckey0 <= n - 1 ->
  sign msg seckey0 aux_rand ent = (Raise ValueError, ent).
Proof.
  intros H. unfold sign.
  destruct (negb (Nat.eqb (length msg) 32)); [reflexivity|].
  destruct (negb _) eqn:E; [reflexivity|].
  apply key_range_test in E. contradiction.
Qed.

Lemma sign_keypair_finite (d0 x y : Z) :
  point_mul (Some G) d0 = Some (x, y) ->
  sign_keypair d0 = Ok (if Z.even y then d0 else n - d0, Some (x, y)).
Proof.
  intros HP. unfold sign_keypair. rewrite HP. reflexivity.
Qed.

Lemma sign_k0_finite (msg aux : bytes) (d0 x y : Z) :
  point_mul (Some G) d0 = Some (x, y) ->
  sign_k0 msg d0 aux
  = Ok (sign_nonce (if Z.even y then d0 else n - d0) (bytes_from_int x) msg aux).
Proof.
  intros HP. unfold sign_k0. rewrite (sign_keypair_finite _ _ _ HP). reflexivity.
Qed.

Lemma sign_run (msg seckey0 : bytes) (aux_rand : option bytes) (ent : entropy)
    (x y : Z) :
  length msg = 32%nat ->
  1 <= int_from_bytes seckey0 <= n - 1 ->
  point_mul (Some G) (int_from_bytes seckey0) = Some (x, y) ->
  let d := if Z.even y then int_from_bytes seckey0
           else n - int_from_bytes seckey0 in
  let k0 := sign_nonce d (bytes_from_int x) msg (sign_aux aux_rand ent) in
  sign msg seckey0 aux_rand ent =
  if k0 =? 0 then (Raise RuntimeError, sign_draws aux_rand ent) else
  match point_mul (Some G) k0 with
  | None => (Raise TypeError, sign_draws aux_rand ent)
  | Some (xr, yr) =>
      let k := if Z.even yr then k0 else n - k0 in
      let e := int_from_bytes
                 (tagged_hash "BIP0340/challenge"
                    (bytes_from_int xr ++ bytes_from_int x ++ msg)) mod n in
      (Ok (bytes_from_int xr ++ bytes_from_int ((k + e * d) mod n)),
       sign_draws aux_rand ent)
  end.
Proof.
  intros Hm Hk HP d k0. unfold sign. rewrite Hm, Nat.eqb_refl. cbn [negb].
  apply key_range_test in Hk. rewrite Hk.
  rewrite (sign_keypair_finite _ _ _ HP).
  rewrite bindM_lift_Ok. cbn [fst snd].
  rewrite (bindM_run _ _ _ _ _ (sign_aux_run aux_rand ent)).
  cbn [bytes_from_point]. rewrite bindM_lift_Ok.
  fold d. fold k0.
  destruct (k0 =? 0); [reflexivity|].
  destruct (point_mul (Some G) k0) as [[xr yr]|]; [|reflexivity].
  cbn [has_even_y bytes_from_point]. rewrite !bindM_lift_Ok.
  destruct (Z.even yr); reflexivity.
Qed.

Lemma bcrypto410_sign_bad_length (msg seckey0 : bytes) (ent : entropy) :
  length msg <> 32%nat ->
  bcrypto410_sign msg seckey0 ent = (Raise ValueError, ent).
Proof.
  intros H. unfold bcrypto410_sign. apply Nat.eqb_neq in H. rewrite H.
  reflexivity.
Qed.

Lemma bcrypto410_sign_bad_key (msg seckey0 : bytes) (ent : entropy) :
  ~ 1 <= int_from_bytes seckey0 <= n - 1 ->
  bcrypto410_sign msg seckey0 ent = (Raise ValueError, ent).
Proof.
  intros H. unfold bcrypto410_sign.
  destruct (negb (Nat.eqb (length msg) 32)); [reflexivity|].
  destruct (negb _) eqn:E; [reflexivity|].
  apply key_range_test in E. contradiction.
Qed.

Lemma bcrypto410_sign_run (msg seckey0 : bytes) (ent : entropy) :
  length msg = 32%nat ->
  1 <= int_from_bytes seckey0 <= n - 1 ->
  let k0 := bcrypto410_k0 msg seckey0 in
  bcrypto410_sign msg seckey0 ent =
  if k0 =? 0 then (Raise RuntimeError, ent) else
  match point_mul (Some G) k0 with
  | None => (Raise TypeError, ent)
  | Some (xr, yr) =>
      let e := int_from_bytes
                 (hash_sha256
                    (bytes_from_int xr
                     ++ encoded_from_point
                          (point_mul (Some G) (int_from_bytes seckey0))
                     ++ msg)) mod n in
      let k := if is_quad yr then k0 else n - k0 in
      (Ok (bytes_from_int xr
           ++ bytes_from_int ((k + e * int_from_bytes seckey0) mod n)), ent)
  end.
Proof.
  intros Hm Hk k0. unfold bcrypto410_sign. rewrite Hm, Nat.eqb_refl. cbn [negb].
  apply key_range_test in Hk. rewrite Hk.
  fold (bcrypto410_k0 msg seckey0). fold k0.
  destruct (k0 =? 0); [reflexivity|].
  destruct (point_mul (Some G) k0) as [[xr yr]|]; [|reflexivity].
  cbn [attr_x attr_y]. rewrite !bindM_lift_Ok.
  destruct (is_quad yr); reflexivity.
Qed.

Lemma sign_no_ValueError (msg seckey0 : bytes) (aux_rand : option bytes)
    (ent : entropy) :
  length msg = 32%nat ->
  1 <= int_from_bytes seckey0 <= n - 1 ->
  fst (sign msg seckey0 aux_rand ent) <> Raise ValueError.
Proof.
  intros Hm Hk.
  destruct (point_mul (Some G) (int_from_bytes seckey0)) as [[x y]|] eqn:HP.
  - rewrite (sign_run _ _ _ _ _ _ Hm Hk HP). cbv zeta.
    destruct (_ =? 0); [cbn [fst]; discriminate|].
    destruct (point_mul (Some G) (sign_nonce _ _ _ _)) as [[xr yr]|];
      cbn [fst]; discriminate.
  - unfold sign. rewrite Hm, Nat.eqb_refl. cbn [negb].
    apply key_range_test in Hk. rewrite Hk.
    unfold sign_keypair. rewrite HP. cbn [has_even_y bind].
    unfold bindM at 1. unfold lift at 1. cbn [fst]. discriminate.
Qed.

(** *** Range of the signature components *)

(** C4, as the code has it: on well-lengthed input, a signature whose [r]
    is not below [p] or whose [s] is not below [n] makes [verify] return
    [False].  [bcrypto410_verify] decodes the public key first (line 99):
    when the decoder returns, the verifier returns [False]; when the
    decoder raises, the verifier raises the same exception, whatever [r]
    and [s] are.  The statement holds in every package, whatever its
    [point_add] and [point_mul] do: the answer is given before [R] is
    computed. *)
Theorem out_of_range_signature_is_false
    (msg pubkey pubkey_sec1 sig : bytes) :
  length msg = 32%nat ->
  length sig = 64%nat ->
  p <= int_from_bytes (firstn 32 sig) \/ n <= int_from_bytes (skipn 32 sig) ->
  (length pubkey = 32%nat -> verify msg pubkey sig = Ok false)
  /\ (forall P, PublicKey_decode pubkey_sec1 = Ok P ->
                bcrypto410_verify msg pubkey_sec1 sig = Ok false)
  /\ (forall e, PublicKey_decode pubkey_sec1 = Raise e ->
                bcrypto410_verify msg pubkey_sec1 sig = Raise e).
Proof.
  intros Hm Hs Hrs.
  assert (Hb : (p <=? int_from_bytes (firstn 32 sig))
               || (n <=? int_from_bytes (skipn 32 sig)) = true).
  { apply orb_true_iff. rewrite !Z.leb_le. exact Hrs. }
  split; [|split].
  - intros Hp. rewrite (verify_good_length _ _ _ Hm Hp Hs).
    destruct (lift_x pubkey); [|reflexivity].
    cbv zeta. rewrite Hb. reflexivity.
  - intros P HP. rewrite (bcrypto410_verify_good_length _ _ _ Hm Hs), HP.
    cbv zeta. rewrite Hb. reflexivity.
  - intros e He. rewrite (bcrypto410_verify_good_length _ _ _ Hm Hs), He.
    reflexivity.
Qed.

(** *** Wrong lengths *)

Lemma bcrypto410_sign_no_ValueError (msg seckey0 : bytes) (ent : entropy) :
  length msg = 32%nat ->
  1 <= int_from_bytes seckey0 <= n - 1 ->
  fst (bcrypto410_sign msg seckey0 ent) <> Raise ValueError.
Proof.
  intros Hm Hk. rewrite (bcrypto410_sign_run _ _ _ Hm Hk). cbv zeta.
  destruct (_ =? 0); [cbn [fst]; discriminate|].
  destruct (point_mul (Some G) _) as [[xr yr]|]; cbn [fst]; discriminate.
Qed.

(** C6, as the code has it: a message that is not 32 bytes long makes each
    of the four operations raise [ValueError]; so does a public key that is
    not 32 bytes long for [verify] and a signature that is not 64 bytes
    long for both verifiers; and [ValueError] is not the answer [False].
    The signers test the value of the secret key, not its length: outside
    [1, n-1] they raise [ValueError], inside neither of them does, whatever
    the length of the key and of [aux_rand].  [bcrypto410_verify] has no
    test on its public key: the buffer goes to [PublicKey.decode], and what
    the decoder raises is what the verifier raises. *)
Theorem wrong_length_raises_ValueError
    (msg seckey0 pubkey sig : bytes) (aux_rand : option bytes) (ent : entropy) :
  (length msg <> 32%nat ->
     sign msg seckey0 aux_rand ent = (Raise ValueError, ent)
     /\ bcrypto410_sign msg seckey0 ent = (Raise ValueError, ent)
     /\ verify msg pubkey sig = Raise ValueError
     /\ bcrypto410_verify msg pubkey sig = Raise ValueError)
  /\ (length pubkey <> 32%nat -> verify msg pubkey sig = Raise ValueError)
  /\ (length sig <> 64%nat ->
        verify msg pubkey sig = Raise ValueError
        /\ bcrypto410_verify msg pubkey sig = Raise ValueError)
  /\ (~ 1 <= int_from_bytes seckey0 <= n - 1 ->
        sign msg seckey0 aux_rand ent = (Raise ValueError, ent)
        /\ bcrypto410_sign msg seckey0 ent = (Raise ValueError, ent))
  /\ (length msg = 32%nat -> 1 <= int_from_bytes seckey0 <= n - 1 ->
        fst (sign msg seckey0 aux_rand ent) <> Raise ValueError
        /\ fst (bcrypto410_sign msg seckey0 ent) <> Raise ValueError)
  /\ (length msg = 32%nat -> length sig = 64%nat ->
        forall e, PublicKey_decode pubkey = Raise e ->
                  bcrypto410_verify msg pubkey sig = Raise e)
  /\ @Raise bool ValueError <> Ok false.
Proof.
  split; [intros Hm; repeat split|].
  { apply sign_bad_length; exact Hm. }
  { apply bcrypto410_sign_bad_length; exact Hm. }
  { apply verify_bad_length; auto. }
  { apply bcrypto410_verify_bad_length; auto. }
  split; [intros Hp; apply verify_bad_length; auto|].
  split; [intros Hs; split|].
  { apply verify_bad_length; auto. }
  { apply bcrypto410_verify_bad_length; auto. }
  split; [intros Hk; split|].
  { apply sign_bad_key; exact Hk. }
  { apply bcrypto410_sign_bad_key; exact Hk. }
  split; [intros Hm Hk; split|].
  { apply sign_no_ValueError; assumption. }
  { apply bcrypto410_sign_no_ValueError; assumption. }
  split; [|discriminate].
  intros Hm Hs e He.
  rewrite (bcrypto410_verify_good_length _ _ _ Hm Hs), He. reflexivity.
Qed.

(** *** The zero nonce *)

(** C8: when the nonce scalar of a run is zero, [sign] and
    [bcrypto410_sign] end with [RuntimeError], which is not the
    [ValueError] of invalid input; the run has drawn from the entropy
    source once if [aux_rand] was absent and never otherwise, and no second
    nonce is derived. *)
Theorem zero_nonce_aborts
    (msg seckey0 : bytes) (aux_rand : option bytes) (ent : entropy) :
  length msg = 32%nat ->
  1 <= int_from_bytes seckey0 <= n - 1 ->
  (sign_k0 msg (int_from_bytes seckey0) (sign_aux aux_rand ent) = Ok 0 ->
     sign msg seckey0 aux_rand ent
     = (Raise RuntimeError, sign_draws aux_rand ent))
  /\ (bcrypto410_k0 msg seckey0 = 0 ->
        bcrypto410_sign msg seckey0 ent = (Raise RuntimeError, ent))
  /\ RuntimeError <> ValueError.
Proof.
  intros Hm Hk. repeat split.
  - intros H0.
    destruct (point_mul (Some G) (int_from_bytes seckey0)) as [[x y]|] eqn:HP.
    + rewrite (sign_k0_finite _ _ _ _ _ HP) in H0. injection H0 as H0.
      rewrite (sign_run _ _ _ _ _ _ Hm Hk HP). cbv zeta. rewrite H0.
      reflexivity.
    + unfold sign_k0, sign_keypair in H0. rewrite HP in H0. discriminate.
  - intros H0. rewrite (bcrypto410_sign_run _ _ _ Hm Hk). cbv zeta.
    rewrite H0. reflexivity.
  - discriminate.
Qed.

End Properties.

(** *** Determinism *)

Lemma sign_given_aux_state {pkg : Package} (msg seckey0 aux : bytes)
    (ent : entropy) :
  sign msg seckey0 (Some aux) ent = (fst (sign msg seckey0 (Some aux) O), ent).
Proof.
  unfold sign.
  destruct (negb (Nat.eqb (length msg) 32)); [reflexivity|].
  destruct (negb _); [reflexivity|].
  destruct (sign_keypair (int_from_bytes seckey0)) as [[d P]|e];
    [|reflexivity].
  rewrite !bindM_lift_Ok. cbn [fst snd].
  rewrite !(bindM_run (ret aux) _ aux _ _ eq_refl).
  destruct (bytes_from_point P) as [Pb|e]; [|reflexivity].
  rewrite !bindM_lift_Ok.
  destruct (_ =? 0); [reflexivity|].
  destruct (has_even_y _) as [ev|e]; [|reflexivity].
  rewrite !bindM_lift_Ok.
  destruct (bytes_from_point _) as [r|e]; reflexivity.
Qed.

Lemma sign_given_aux_urandom (pkg : Package) (draws : nat -> Z)
    (msg seckey0 aux : bytes) (ent : entropy) :
  sign (pkg := with_urandom pkg draws) msg seckey0 (Some aux) ent
  = sign (pkg := pkg) msg seckey0 (Some aux) ent.
Proof. reflexivity. Qed.

Lemma bcrypto410_sign_state {pkg : Package} (msg seckey0 : bytes)
    (ent : entropy) :
  bcrypto410_sign msg seckey0 ent = (fst (bcrypto410_sign msg seckey0 O), ent).
Proof.
  unfold bcrypto410_sign.
  destruct (negb (Nat.eqb (length msg) 32)); [reflexivity|].
  destruct (negb _); [reflexivity|].
  destruct (_ =? 0); [reflexivity|].
  destruct (attr_x _) as [Rx|e]; [|reflexivity].
  rewrite !bindM_lift_Ok.
  destruct (attr_y _) as [Ry|e]; reflexivity.
Qed.

Lemma bcrypto410_sign_urandom (pkg : Package) (draws : nat -> Z)
    (msg seckey0 : bytes) (ent : entropy) :
  bcrypto410_sign (pkg := with_urandom pkg draws) msg seckey0 ent
  = bcrypto410_sign (pkg := pkg) msg seckey0 ent.
Proof. reflexivity. Qed.

(** C9: with [aux_rand] supplied, the result of [sign] is the same in two
    runs on the same message, key and auxiliary bytes, whatever the entropy
    source would return and however often it was used before, and the run
    leaves the entropy count as it found it: the source is not consulted.
    [bcrypto410_sign] never consults it. *)
Theorem sign_deterministic_given_aux
    (pkg : Package) (msg seckey0 aux : bytes)
    (draws1 draws2 : nat -> Z) (ent1 ent2 : entropy) :
  fst (sign (pkg := with_urandom pkg draws1) msg seckey0 (Some aux) ent1)
  = fst (sign (pkg := with_urandom pkg draws2) msg seckey0 (Some aux) ent2)
  /\ snd (sign (pkg := with_urandom pkg draws1) msg seckey0 (Some aux) ent1)
     = ent1
  /\ fst (bcrypto410_sign (pkg := with_urandom pkg draws1) msg seckey0 ent1)
     = fst (bcrypto410_sign (pkg := with_urandom pkg draws2) msg seckey0 ent2)
  /\ snd (bcrypto410_sign (pkg := with_urandom pkg draws1) msg seckey0 ent1)
     = ent1.
Proof.
  rewrite !sign_given_aux_urandom, !bcrypto410_sign_urandom.
  rewrite (sign_given_aux_state _ _ _ ent1), (sign_given_aux_state _ _ _ ent2).
  rewrite (bcrypto410_sign_state _ _ ent1), (bcrypto410_sign_state _ _ ent2).
  cbn [fst snd]. repeat split.
Qed.

(** ** With a lawful curve *)

Section Lawful.

Context {pkg : Package} {laws : CurveLaws}.

Lemma even_flip (y : Z) : Z.even (p - y) = negb (Z.even y).
Proof.
  rewrite Z.even_sub. pose proof p_odd as Hp.
  rewrite <- Z.negb_even in Hp. apply negb_true_iff in Hp. rewrite Hp.
  destruct (Z.even y); reflexivity.
Qed.

(** A non-zero scalar and its opposite: one of the two multiples of [G]
    has an even [y]; the code keeps that scalar. *)
Lemma even_multiple (k : Z) :
  0 < k < n ->
  exists x y,
    point_mul (Some G) k = Some (x, y)
    /\ 0 <= x < p
    /\ 0 < (if Z.even y then k else n - k) < n
    /\ point_mul (Some G) (if Z.even y then k else n - k)
       = Some (x, if Z.even y then y else p - y)
    /\ Z.even (if Z.even y then y else p - y) = true.
Proof.
  intros Hk. destruct (G_mul_finite k Hk) as (x & y & HP & Hx & Hy).
  exists x, y. split; [exact HP|]. split; [exact Hx|].
  destruct (Z.even y) eqn:Ey.
  - repeat split; try lia; assumption.
  - repeat split; try lia.
    + apply G_mul_opp; assumption.
    + rewrite even_flip, Ey. reflexivity.
Qed.

Lemma response_scalar (k e d : Z) :
  0 < k < n ->
  ((k + e * d) mod n + (d * (n - e)) mod n) mod n = k.
Proof.
  intros Hk. pose proof n_pos as Hn.
  rewrite <- Z.add_mod by lia.
  replace (k + e * d + d * (n - e)) with (k + d * n) by ring.
  rewrite Z.mod_add by lia. apply Z.mod_small. lia.
Qed.

(** *** Key normalisation *)

(** C7: for a secret scalar [d0] in [1, n-1], lines 132-133 of [sign] keep
    [d0] when [G * d0] has an even [y] and take [n - d0] otherwise; the
    scalar [d] they keep is in [1, n-1], the point [G * d] has an even [y],
    and its x-only encoding is the encoding of the point [P] that the code
    carries on with (the code never reads [P.y] again). *)
Theorem sign_keypair_even_y (d0 : Z) :
  1 <= d0 <= n - 1 ->
  exists x y,
    point_mul (Some G) d0 = Some (x, y)
    /\ sign_keypair d0 = Ok (if Z.even y then d0 else n - d0, Some (x, y))
    /\ 1 <= (if Z.even y then d0 else n - d0) <= n - 1
    /\ has_even_y (point_mul (Some G) (if Z.even y then d0 else n - d0))
       = Ok true
    /\ bytes_from_point (point_mul (Some G) (if Z.even y then d0 else n - d0))
       = bytes_from_point (Some (x, y)).
Proof.
  intros Hd0.
  destruct (even_multiple d0 ltac:(lia)) as (x & y & HP & Hx & Hd & HPd & Hev).
  exists x, y. split; [exact HP|].
  split; [apply sign_keypair_finite; exact HP|].
  split; [lia|].
  rewrite HPd. cbn [has_even_y bytes_from_point]. rewrite Hev. split; reflexivity.
Qed.

(** *** Signing then verifying *)

(** C1: for a 32-byte message, a secret key of value in [1, n-1] and any
    auxiliary bytes, [sign] returns a signature unless the nonce scalar is
    zero, and [verify] answers [True] on the message, the x-only encoding
    of [G * seckey0] and that signature. *)
Theorem sign_verify_roundtrip (msg seckey0 aux : bytes) (ent : entropy) :
  length msg = 32%nat ->
  1 <= int_from_bytes seckey0 <= n - 1 ->
  sign_k0 msg (int_from_bytes seckey0) aux <> Ok 0 ->
  exists sig pubkey,
    sign msg seckey0 (Some aux) ent = (Ok sig, ent)
    /\ bytes_from_point (point_mul (Some G) (int_from_bytes seckey0))
       = Ok pubkey
    /\ verify msg pubkey sig = Ok true.
Proof.
  intros Hm Hk Hnz.
  pose proof n_pos as Hn. pose proof p_bound as Hpb. pose proof n_bound as Hnb.
  destruct (even_multiple (int_from_bytes seckey0) ltac:(lia))
    as (x & y & HP & Hx & Hd & HPd & Hev).
  rewrite (sign_k0_finite _ _ _ _ _ HP) in Hnz.
  set (d := if Z.even y then int_from_bytes seckey0
            else n - int_from_bytes seckey0) in *.
  set (k0 := sign_nonce d (bytes_from_int x) msg aux) in *.
  assert (Hk0 : 0 < k0 < n).
  { assert (0 <= k0 < n) by (apply Z.mod_pos_bound; lia).
    assert (k0 <> 0) by congruence. lia. }
  destruct (even_multiple k0 Hk0) as (xr & yr & HR & Hxr & Hkk & HRk & Hevr).
  set (k := if Z.even yr then k0 else n - k0) in *.
  set (e := int_from_bytes
              (tagged_hash "BIP0340/challenge"
                 (bytes_from_int xr ++ bytes_from_int x ++ msg)) mod n).
  assert (He : 0 <= e < n) by (apply Z.mod_pos_bound; lia).
  set (s := (k + e * d) mod n).
  assert (Hs : 0 <= s < n) by (apply Z.mod_pos_bound; lia).
  exists (bytes_from_int xr ++ bytes_from_int s), (bytes_from_int x).
  split; [|split].
  - rewrite (sign_run _ _ _ _ _ _ Hm Hk HP). cbv zeta. cbn [sign_aux sign_draws].
    fold d. fold k0. destruct (Z.eqb_spec k0 0) as [E|_]; [lia|].
    rewrite HR. reflexivity.
  - rewrite HP. reflexivity.
  - rewrite verify_good_length;
      [| assumption | apply bytes_from_int_length
       | rewrite length_app, !bytes_from_int_length; reflexivity ].
    rewrite (lift_x_even _ _ _ Hd HPd Hev).
    rewrite firstn_bytes_from_int, skipn_bytes_from_int.
    rewrite !int_from_bytes_from_int by lia. cbv zeta.
    destruct (Z.leb_spec p xr) as [E|_]; [lia|].
    destruct (Z.leb_spec n s) as [E|_]; [lia|]. cbn [orb].
    fold e. rewrite <- HPd.
    rewrite G_mul_mul by lia.
    rewrite G_mul_add by (try assumption; apply Z.mod_pos_bound; lia).
    unfold s. rewrite response_scalar by assumption.
    rewrite HRk, Hevr, Z.eqb_refl. reflexivity.
Qed.

End Lawful.

(** *** Auxiliary randomness of any length *)

Section LawfulAux.

Context {pkg : Package} {laws : CurveLaws}.

(** C10: [sign] has no test on [aux_rand].  For a 32-byte message, a key
    of value in [1, n-1] and a buffer [aux] of any length, the buffer goes
    as it is into [tagged_hash("BIP0340/aux", aux)], whose result masks
    the secret key in the nonce hash; unless the nonce scalar is zero,
    [sign] returns the 64 bytes [r || s] computed from that nonce, raises
    no exception and leaves the entropy source alone. *)
Theorem sign_accepts_any_aux (msg seckey0 aux : bytes) (ent : entropy) :
  length msg = 32%nat ->
  1 <= int_from_bytes seckey0 <= n - 1 ->
  sign_k0 msg (int_from_bytes seckey0) aux <> Ok 0 ->
  exists x y xr yr,
    point_mul (Some G) (int_from_bytes seckey0) = Some (x, y)
    /\ let d := if Z.even y then int_from_bytes seckey0
                else n - int_from_bytes seckey0 in
       let t := xor_bytes (bytes_from_int d)
                          (tagged_hash "BIP0340/aux" aux) in
       let k0 := int_from_bytes
                   (tagged_hash "BIP0340/nonce"
                      (t ++ bytes_from_int x ++ msg)) mod n in
       let k := if Z.even yr then k0 else n - k0 in
       let e := int_from_bytes
                  (tagged_hash "BIP0340/challenge"
                     (bytes_from_int xr ++ bytes_from_int x ++ msg)) mod n in
       let sig := bytes_from_int xr ++ bytes_from_int ((k + e * d) mod n) in
       point_mul (Some G) k0 = Some (xr, yr)
       /\ sign msg seckey0 (Some aux) ent = (Ok sig, ent)
       /\ length sig = 64%nat.
Proof.
  intros Hm Hk Hnz. pose proof n_pos as Hn.
  assert (Hd0 : 0 < int_from_bytes seckey0 < n) by lia.
  destruct (G_mul_finite _ Hd0) as (x & y & HP & Hx & Hy).
  rewrite (sign_k0_finite _ _ _ _ _ HP) in Hnz. unfold sign_nonce in Hnz.
  set (d := if Z.even y then int_from_bytes seckey0
            else n - int_from_bytes seckey0) in *.
  set (t := xor_bytes (bytes_from_int d) (tagged_hash "BIP0340/aux" aux))
    in *.
  set (k0 := int_from_bytes
               (tagged_hash "BIP0340/nonce" (t ++ bytes_from_int x ++ msg))
             mod n) in *.
  assert (Hk0 : 0 < k0 < n).
  { assert (0 <= k0 < n) by (apply Z.mod_pos_bound; lia).
    assert (k0 <> 0) by congruence. lia. }
  destruct (G_mul_finite _ Hk0) as (xr & yr & HR & Hxr & Hyr).
  exists x, y, xr, yr. split; [exact HP|]. cbv zeta.
  fold d. fold t. fold k0.
  split; [exact HR|]. split.
  - rewrite (sign_run _ _ _ _ _ _ Hm Hk HP). cbv zeta.
    cbn [sign_aux sign_draws]. unfold sign_nonce.
    fold d. fold t. fold k0.
    destruct (Z.eqb_spec k0 0) as [E|_]; [lia|].
    rewrite HR. reflexivity.
  - rewrite length_app, !bytes_from_int_length. reflexivity.
Qed.

End LawfulAux.

(** ** The laws hold on the small curve *)

Lemma Zrange_forallb (f : Z -> bool) (lo : Z) (len : nat) :
  forallb f (Zrange lo len) = true ->
  forall k, lo <= k < lo + Z.of_nat len -> f k = true.
Proof.
  intros H k Hk. rewrite forallb_forall in H. apply H.
  unfold Zrange. apply in_map_iff. exists (Z.to_nat (k - lo)). split.
  - lia.
  - apply in_seq. lia.
Qed.

Lemma point_eqb_eq (P Q : option point) : point_eqb P Q = true -> P = Q.
Proof.
  destruct P as [[a b]|], Q as [[c d]|]; simpl; intros H;
    try discriminate; try reflexivity.
  apply andb_true_iff in H. destruct H as [H1 H2].
  apply Z.eqb_eq in H1, H2. subst. reflexivity.
Qed.

Lemma toy_finite (draws : nat -> Z) (k : Z) :
  0 < k < 31 -> check_finite (pkg := toy draws) k = true.
Proof.
  intros Hk. apply (Zrange_forallb _ 1 30); [vm_compute; reflexivity | lia].
Qed.

Lemma toy_opp (draws : nat -> Z) (k : Z) :
  0 < k < 31 -> check_opp (pkg := toy draws) k = true.
Proof.
  intros Hk. apply (Zrange_forallb _ 1 30); [vm_compute; reflexivity | lia].
Qed.

Lemma toy_add (draws : nat -> Z) (a b : Z) :
  0 <= a < 31 -> 0 <= b < 31 -> check_add (pkg := toy draws) a b = true.
Proof.
  intros Ha Hb.
  apply (Zrange_forallb (fun b => check_add (pkg := toy draws) a b) 0 31);
    [|lia].
  apply (Zrange_forallb
           (fun a => forallb (fun b => check_add (pkg := toy draws) a b)
                             (Zrange 0 31)) 0 31);
    [vm_compute; reflexivity | lia].
Qed.

Lemma toy_mul (draws : nat -> Z) (d k : Z) :
  0 < d < 31 -> 0 <= k <= 31 -> check_mul (pkg := toy draws) d k = true.
Proof.
  intros Hd Hk.
  apply (Zrange_forallb (fun k => check_mul (pkg := toy draws) d k) 0 32);
    [|lia].
  apply (Zrange_forallb
           (fun d => forallb (fun k => check_mul (pkg := toy draws) d k)
                             (Zrange 0 32)) 1 30);
    [vm_compute; reflexivity | lia].
Qed.

Lemma toy_lift (draws : nat -> Z) (k : Z) :
  0 < k < 31 -> check_lift (pkg := toy draws) k = true.
Proof.
  intros Hk. apply (Zrange_forallb _ 1 30); [vm_compute; reflexivity | lia].
Qed.

Lemma toy_laws (draws : nat -> Z) : CurveLaws (pkg := toy draws).
Proof.
  constructor.
  - reflexivity.
  - apply Z.leb_le. reflexivity.
  - apply Z.leb_le. reflexivity.
  - intros k Hk. change (@n (toy draws)) with 31 in Hk.
    pose proof (toy_finite draws k Hk) as H. unfold check_finite in H.
    destruct (point_mul (Some G) k) as [[x y]|]; [|discriminate].
    exists x, y. split; [reflexivity|].
    rewrite !andb_true_iff in H. destruct H as [[[H1 H2] H3] H4].
    apply Z.leb_le in H1. apply Z.ltb_lt in H2, H3, H4. lia.
  - intros k x y Hk HP. change (@n (toy draws)) with 31 in Hk.
    pose proof (toy_opp draws k Hk) as H. unfold check_opp in H.
    rewrite HP in H. apply point_eqb_eq in H. exact H.
  - intros a b Ha Hb. change (@n (toy draws)) with 31 in Ha, Hb.
    apply point_eqb_eq. apply (toy_add draws a b Ha Hb).
  - intros d k Hd Hk. change (@n (toy draws)) with 31 in Hd, Hk.
    apply point_eqb_eq. apply (toy_mul draws d k Hd Hk).
  - intros k x y Hk HP Hev. change (@n (toy draws)) with 31 in Hk.
    pose proof (toy_lift draws k Hk) as H. unfold check_lift in H.
    rewrite HP, Hev in H. apply point_eqb_eq in H. exact H.
Qed.

(** ** On the real curve *)

(** C2, as the code has it: on secret key 3, the zero message and zero
    auxiliary randomness, [sign] returns the 64 bytes
    E907...8215 25F6...36C0 (the printed signature with a final 0, which
    makes 128 digits), the x-only public key is F930...36F9, and [verify]
    answers [True] on them. *)
Theorem bip340_vector_0 (draws : nat -> Z) (ent : entropy) :
  sign (pkg := secp256k1 draws) zeros32 vector0_seckey (Some zeros32) ent
  = (Ok vector0_sig, ent)
  /\ hex_of_bytes vector0_sig
     = String.append
         "E907831F80848D1069A5371B402410364BDF1C5F8307B0084C55F1CE2DCA8215"
         "25F66A4A85EA8B71E482A74F382D2CE5EBEEE8FDB2172F477DF4900D310536C0"
  /\ length vector0_sig = 64%nat
  /\ bytes_from_point (@point_mul (secp256k1 draws) (Some secp256k1_G) 3)
     = Ok vector0_pubkey
  /\ hex_of_bytes vector0_pubkey
     = "F9308A019258C31049344F85F89D5229B531C845836F99B08601F113BCE036F9"%string
  /\ verify (pkg := secp256k1 draws) zeros32 vector0_pubkey vector0_sig
     = Ok true.
Proof.
  split; [vm_compute; reflexivity|].
  split; [vm_compute; reflexivity|].
  split; [vm_compute; reflexivity|].
  split; [vm_compute; reflexivity|].
  split; vm_compute; reflexivity.
Qed.

(** The signature printed for vector 0 has 127 digits: it is not what
    [sign] returns, nor the rendering of any 64 bytes. *)
Lemma bip340_vector_0_not_as_printed :
  ~ (exists sig,
       fst (sign (pkg := secp256k1 (fun _ => 0)) zeros32 vector0_seckey
                 (Some zeros32) O) = Ok sig
       /\ hex_of_bytes sig
          = String.append
              "E907831F80848D1069A5371B402410364BDF1C5F8307B0084C55F1CE2DCA8215"
              "25F66A4A85EA8B71E482A74F382D2CE5EBEEE8FDB2172F477DF4900D310536C").
Proof.
  intros (sig & Hsig & Hhex).
  rewrite (proj1 (bip340_vector_0 (fun _ => 0) O)) in Hsig.
  cbn [fst] in Hsig. injection Hsig as <-.
  vm_compute in Hhex. discriminate Hhex.
Qed.

(** C3, at a well-lengthed input: the public key of vector 0, the zero
    message and the signature [r = 0], [s = 3 * e mod n].  The key lifts to
    [G * 3], the ranges are respected, [G * s + P * (n - e)] is the point
    at infinity, and [verify] ends with [TypeError] instead of [False]. *)
Theorem verify_raises_on_crafted_signature (draws : nat -> Z) :
  length zeros32 = 32%nat
  /\ length vector0_pubkey = 32%nat
  /\ length infinity_sig_vector0 = 64%nat
  /\ @lift_x (secp256k1 draws) vector0_pubkey
     = @point_mul (secp256k1 draws) (Some secp256k1_G) 3
  /\ int_from_bytes
       (tagged_hash (pkg := secp256k1 draws) "BIP0340/challenge"
          (zeros32 ++ vector0_pubkey ++ zeros32)) mod secp256k1_n
     = infinity_e_vector0
  /\ (3 * infinity_e_vector0) mod secp256k1_n = infinity_s_vector0
  /\ verify (pkg := secp256k1 draws) zeros32 vector0_pubkey
            infinity_sig_vector0
     = Raise TypeError.
Proof.
  split; [reflexivity|].
  split; [reflexivity|].
  split; [reflexivity|].
  split; [vm_compute; reflexivity|].
  split; [vm_compute; reflexivity|].
  split; vm_compute; reflexivity.
Qed.

(** C5, at the point at infinity: with the generator as public key, the
    zero message and the signature [r = 0], [s = e], the sum
    [G * s + P * (n - e)] is [None], and both verifiers end with
    [TypeError] instead of [False]. *)
Theorem verifiers_raise_at_infinity (draws : nat -> Z) :
  @lift_x (secp256k1 draws) G_xonly = Some secp256k1_G
  /\ @point_add (secp256k1 draws)
       (@point_mul (secp256k1 draws) (Some secp256k1_G) infinity_s)
       (@point_mul (secp256k1 draws) (Some secp256k1_G)
          (secp256k1_n - infinity_s))
     = None
  /\ verify (pkg := secp256k1 draws) zeros32 G_xonly infinity_sig
     = Raise TypeError
  /\ @PublicKey_decode (secp256k1 draws) G_sec1 = Ok (Some secp256k1_G)
  /\ @point_add (secp256k1 draws)
       (@point_mul (secp256k1 draws) (Some secp256k1_G) infinity_s_legacy)
       (@point_mul (secp256k1 draws) (Some secp256k1_G)
          (secp256k1_n - infinity_s_legacy))
     = None
  /\ bcrypto410_verify (pkg := secp256k1 draws) zeros32 G_sec1
                       infinity_sig_legacy
     = Raise TypeError.
Proof.
  split; [vm_compute; reflexivity|].
  split; [vm_compute; reflexivity|].
  split; [vm_compute; reflexivity|].
  split; [vm_compute; reflexivity|].
  split; vm_compute; reflexivity.
Qed.

(** Two wrong-length inputs that raise nothing.  A secret key of one byte:
    [sign] returns the signature of vector 0.  An empty public key, in the
    package whose decoder returns the generator for every buffer:
    [bcrypto410_verify] reaches the decoder and answers [False], so it
    has no length test of its own before decoding. *)
Lemma short_secret_key_is_accepted :
  length [x03] <> 32%nat
  /\ sign (pkg := secp256k1 (fun _ => 0)) zeros32 [x03] (Some zeros32) O
     = (Ok vector0_sig, O)
  /\ @length byte [] <> 33%nat /\ @length byte [] <> 65%nat
  /\ bcrypto410_verify
       (pkg := with_decoder (secp256k1 (fun _ => 0))
                            (fun _ => Ok (Some secp256k1_G)))
       zeros32 [] vector0_sig
     = Ok false.
Proof.
  split; [discriminate|].
  split; [vm_compute; reflexivity|].
  split; [discriminate|].
  split; [discriminate|].
  vm_compute. reflexivity.
Qed.

(** A 33-byte public key whose [x] is not on the curve, with [r = p]: the
    lengths are right, [r] is out of range, and [bcrypto410_verify] raises
    what the decoder raises instead of answering [False]. *)
Lemma out_of_range_signature_undecodable_key :
  length zeros32 = 32%nat
  /\ length off_curve_sec1 = 33%nat
  /\ length out_of_range_sig = 64%nat
  /\ secp256k1_p <= int_from_bytes (firstn 32 out_of_range_sig)
  /\ bcrypto410_verify (pkg := secp256k1 (fun _ => 0)) zeros32
                       off_curve_sec1 out_of_range_sig
     = Raise ValueError.
Proof.
  split; [reflexivity|].
  split; [vm_compute; reflexivity|].
  split; [vm_compute; reflexivity|].
  split; [vm_compute; intro H; discriminate H|].
  vm_compute. reflexivity.
Qed.

(** ** The statements at concrete inputs *)

Lemma sign_verify_roundtrip_witness :
  exists sig pubkey,
    sign (pkg := toy (fun _ => 0)) zeros32 vector0_seckey (Some zeros32) O
    = (Ok sig, O)
    /\ bytes_from_point
         (@point_mul (toy (fun _ => 0)) (Some (@G (toy (fun _ => 0))))
            (int_from_bytes vector0_seckey))
       = Ok pubkey
    /\ verify (pkg := toy (fun _ => 0)) zeros32 pubkey sig = Ok true.
Proof.
  apply (sign_verify_roundtrip (pkg := toy (fun _ => 0))
           (laws := toy_laws (fun _ => 0)) zeros32 vector0_seckey zeros32 O).
  - reflexivity.
  - vm_compute. split; intro H; discriminate H.
  - vm_compute. intro H; discriminate H.
Defined.

Lemma sign_keypair_even_y_witness :
  exists x y,
    @point_mul (toy (fun _ => 0)) (Some (@G (toy (fun _ => 0)))) 3
    = Some (x, y)
    /\ sign_keypair (pkg := toy (fun _ => 0)) 3
       = Ok (if Z.even y then 3 else @n (toy (fun _ => 0)) - 3, Some (x, y))
    /\ 1 <= (if Z.even y then 3 else @n (toy (fun _ => 0)) - 3)
         <= @n (toy (fun _ => 0)) - 1
    /\ has_even_y
         (@point_mul (toy (fun _ => 0)) (Some (@G (toy (fun _ => 0))))
            (if Z.even y then 3 else @n (toy (fun _ => 0)) - 3))
       = Ok true
    /\ bytes_from_point
         (@point_mul (toy (fun _ => 0)) (Some (@G (toy (fun _ => 0))))
            (if Z.even y then 3 else @n (toy (fun _ => 0)) - 3))
       = bytes_from_point (Some (x, y)).
Proof.
  apply (sign_keypair_even_y (pkg := toy (fun _ => 0))
           (laws := toy_laws (fun _ => 0)) 3).
  vm_compute. split; intro H; discriminate H.
Defined.

Lemma out_of_range_signature_is_false_witness :
  verify (pkg := secp256k1 (fun _ => 0)) zeros32 G_xonly out_of_range_sig
  = Ok false
  /\ bcrypto410_verify (pkg := secp256k1 (fun _ => 0)) zeros32 G_sec1
                       out_of_range_sig
     = Ok false
  /\ bcrypto410_verify (pkg := secp256k1 (fun _ => 0)) zeros32
                       off_curve_sec1 out_of_range_sig
     = Raise ValueError.
Proof.
  assert (Hs : length out_of_range_sig = 64%nat) by (vm_compute; reflexivity).
  assert (Hr : @p (secp256k1 (fun _ => 0))
               <= int_from_bytes (firstn 32 out_of_range_sig)
               \/ @n (secp256k1 (fun _ => 0))
                  <= int_from_bytes (skipn 32 out_of_range_sig)).
  { left. vm_compute. intro H; discriminate H. }
  destruct (out_of_range_signature_is_false (pkg := secp256k1 (fun _ => 0))
              zeros32 G_xonly G_sec1 out_of_range_sig eq_refl Hs Hr)
    as (A & B & _).
  destruct (out_of_range_signature_is_false (pkg := secp256k1 (fun _ => 0))
              zeros32 G_xonly off_curve_sec1 out_of_range_sig eq_refl Hs Hr)
    as (_ & _ & C).
  split; [apply A; vm_compute; reflexivity|].
  split; [apply (B (Some secp256k1_G)); vm_compute; reflexivity|].
  apply C. vm_compute. reflexivity.
Defined.

Lemma wrong_length_raises_ValueError_witness :
  sign (pkg := secp256k1 (fun _ => 0)) [] vector0_seckey (Some zeros32) O
  = (Raise ValueError, O)
  /\ bcrypto410_sign (pkg := secp256k1 (fun _ => 0)) [] vector0_seckey O
     = (Raise ValueError, O)
  /\ verify (pkg := secp256k1 (fun _ => 0)) [] G_xonly vector0_sig
     = Raise ValueError
  /\ bcrypto410_verify (pkg := secp256k1 (fun _ => 0)) [] G_xonly vector0_sig
     = Raise ValueError.
Proof.
  apply (proj1 (wrong_length_raises_ValueError
                  (pkg := secp256k1 (fun _ => 0))
                  [] vector0_seckey G_xonly vector0_sig (Some zeros32) O)).
  discriminate.
Defined.

Lemma zero_nonce_aborts_witness :
  sign (pkg := secp256k1_zero_hash (fun _ => 0)) zeros32 vector0_seckey None O
  = (Raise RuntimeError, 1%nat)
  /\ bcrypto410_sign (pkg := secp256k1_zero_hash (fun _ => 0)) zeros32
                     vector0_seckey O
     = (Raise RuntimeError, O).
Proof.
  assert (Hk : 1 <= int_from_bytes vector0_seckey
               <= @n (secp256k1_zero_hash (fun _ => 0)) - 1).
  { vm_compute. split; intro H; discriminate H. }
  destruct (zero_nonce_aborts (pkg := secp256k1_zero_hash (fun _ => 0))
              zeros32 vector0_seckey None O eq_refl Hk) as (A & B & _).
  split.
  - apply A. vm_compute. reflexivity.
  - apply B. vm_compute. reflexivity.
Defined.

Lemma sign_accepts_any_aux_witness :
  exists sig,
    length short_aux = 3%nat
    /\ sign (pkg := toy (fun _ => 0)) zeros32 toy_seckey (Some short_aux) O
       = (Ok sig, O)
    /\ length sig = 64%nat.
Proof.
  destruct (sign_accepts_any_aux (pkg := toy (fun _ => 0))
              (laws := toy_laws (fun _ => 0)) zeros32 toy_seckey short_aux O)
    as (x & y & xr & yr & _ & _ & Hsig & Hlen).
  - reflexivity.
  - vm_compute. split; intro H; discriminate H.
  - vm_compute. intro H; discriminate H.
  - eexists. split; [reflexivity|]. split; [exact Hsig | exact Hlen].
Defined.

(** * Beyond the claims *)

(** ** The x-only codec *)

Lemma byte_of_Z_of_byte (c : byte) : byte_of_Z (Z_of_byte c) = c.
Proof.
  unfold byte_of_Z. pose proof (Z_of_byte_range c) as Hc.
  rewrite Z.mod_small by exact Hc. unfold Z_of_byte.
  rewrite N2Z.id, Byte.of_to_N. reflexivity.
Qed.

Lemma byte_of_Z_mod (z : Z) : byte_of_Z (z mod 256) = byte_of_Z z.
Proof.
  unfold byte_of_Z. rewrite Z.mod_mod by lia. reflexivity.
Qed.

Lemma int_from_bytes_nonneg (b : bytes) : 0 <= int_from_bytes b.
Proof.
  induction b as [|c b IH] using rev_ind.
  - unfold int_from_bytes. simpl. lia.
  - rewrite int_from_bytes_snoc. pose proof (Z_of_byte_range c). lia.
Qed.

Lemma be_bytes_int_from_bytes (b : bytes) :
  be_bytes (length b) (int_from_bytes b) = b.
Proof.
  induction b as [|c b IH] using rev_ind.
  - reflexivity.
  - rewrite length_app, Nat.add_comm. cbn [length Nat.add be_bytes].
    rewrite int_from_bytes_snoc. pose proof (Z_of_byte_range c) as Hc.
    replace ((int_from_bytes b * 256 + Z_of_byte c) / 256)
      with (int_from_bytes b)
      by (apply Z.div_unique with (r := Z_of_byte c); lia).
    rewrite IH. f_equal. f_equal.
    rewrite <- byte_of_Z_mod, Z.add_comm, Z.mod_add by lia.
    rewrite Z.mod_small by exact Hc. apply byte_of_Z_of_byte.
Qed.

Lemma int_from_bytes_bound (b : bytes) :
  int_from_bytes b < 256 ^ Z.of_nat (length b).
Proof.
  rewrite <- (be_bytes_int_from_bytes b) at 1.
  rewrite int_from_be_bytes. apply Z.mod_pos_bound.
  apply Z.pow_pos_nonneg; lia.
Qed.

Lemma int_from_bytes_leading_zero (b : bytes) :
  int_from_bytes (x00 :: b) = int_from_bytes b.
Proof. reflexivity. Qed.

Section Codec.

Context {pkg : Package}.

(** [bytes_from_point] after [point_from_bytes] gives back a 32-byte
    buffer whenever the buffer decodes. *)
Theorem bytes_from_point_from_bytes (b : bytes) :
  length b = 32%nat ->
  point_from_bytes b <> None ->
  bytes_from_point (point_from_bytes b) = Ok b.
Proof.
  intros Hb HP. unfold point_from_bytes in *.
  destruct (y_from_x (int_from_bytes b)) as [y|]; [|contradiction].
  destruct (y =? 0); [contradiction|].
  cbn [bytes_from_point]. unfold bytes_from_int. rewrite <- Hb.
  rewrite be_bytes_int_from_bytes. reflexivity.
Qed.

(** [point_from_bytes] after [bytes_from_point] keeps [x] and forgets
    [y]: what it returns, if anything, has the [x] of the encoded point,
    the [y] that [y_from_x] computes, and never [y = 0]; it returns
    nothing when [y_from_x] finds no [y] or finds [0]. *)
Theorem point_from_bytes_from_point (x y : Z) (b : bytes) :
  0 <= x < 2 ^ 256 ->
  bytes_from_point (Some (x, y)) = Ok b ->
  length b = 32%nat
  /\ (forall x' y', point_from_bytes b = Some (x', y') ->
                    x' = x /\ y' <> 0 /\ y_from_x x = Some y')
  /\ (point_from_bytes b = None <->
        y_from_x x = None \/ y_from_x x = Some 0).
Proof.
  intros Hx Hb. cbn [bytes_from_point] in Hb. injection Hb as <-.
  split; [apply bytes_from_int_length|].
  unfold point_from_bytes. rewrite (int_from_bytes_from_int _ Hx).
  destruct (y_from_x x) as [y0|].
  - destruct (Z.eqb_spec y0 0) as [E|E].
    + split; [intros x' y' H; discriminate H|].
      split; [intros _; right; rewrite E; reflexivity | reflexivity].
    + split.
      * intros x' y' H. injection H as <- <-. auto.
      * split; [intros H; discriminate H|].
        intros [H|H]; [discriminate H|]. injection H as ->. contradiction.
  - split; [intros x' y' H; discriminate H|].
    split; [intros _; left; reflexivity | reflexivity].
Qed.

(** [point_from_bytes] has no test on the length of its buffer: zero
    bytes in front change nothing. *)
Theorem point_from_bytes_leading_zeros (k : nat) (b : bytes) :
  point_from_bytes (repeat x00 k ++ b) = point_from_bytes b.
Proof.
  induction k as [|k IH]; [reflexivity|].
  cbn [repeat app]. unfold point_from_bytes in *.
  rewrite int_from_bytes_leading_zero. exact IH.
Qed.

End Codec.

(** ** When the verifier accepts *)

Section Outcomes.

Context {pkg : Package}.

(** [verify] answers [True] exactly when the lengths are right, the key
    lifts, [r] and [s] are in range and [G * s + P * (n - e)] is a finite
    point with [x = r] and an even [y]. *)
Theorem verify_accepts_iff (msg pubkey sig : bytes) :
  verify msg pubkey sig = Ok true
  <-> length msg = 32%nat /\ length pubkey = 32%nat /\ length sig = 64%nat
      /\ int_from_bytes (firstn 32 sig) < p
      /\ int_from_bytes (skipn 32 sig) < n
      /\ exists P Ry,
           lift_x pubkey = Some P
           /\ Z.even Ry = true
           /\ point_add
                (point_mul (Some G) (int_from_bytes (skipn 32 sig)))
                (point_mul (Some P)
                   (n - int_from_bytes
                          (tagged_hash "BIP0340/challenge"
                             (firstn 32 sig ++ pubkey ++ msg)) mod n))
              = Some (int_from_bytes (firstn 32 sig), Ry).
Proof.
  split.
  - intros H.
    destruct (Nat.eq_dec (length msg) 32) as [Hm|Hm];
      [|rewrite verify_bad_length in H by auto; discriminate H].
    destruct (Nat.eq_dec (length pubkey) 32) as [Hp|Hp];
      [|rewrite verify_bad_length in H by auto; discriminate H].
    destruct (Nat.eq_dec (length sig) 64) as [Hs|Hs];
      [|rewrite verify_bad_length in H by auto; discriminate H].
    rewrite (verify_good_length _ _ _ Hm Hp Hs) in H.
    destruct (lift_x pubkey) as [P|]; [|discriminate H].
    cbv zeta in H.
    destruct (Z.leb_spec p (int_from_bytes (firstn 32 sig)));
      [discriminate H|].
    destruct (Z.leb_spec n (int_from_bytes (skipn 32 sig)));
      [discriminate H|].
    cbn [orb] in H.
    destruct (point_add _ _) as [[Rx Ry]|] eqn:HR; [|discriminate H].
    injection H as H. apply andb_true_iff in H. destruct H as [Hev Hx].
    apply Z.eqb_eq in Hx. subst Rx.
    repeat (split; [assumption|]).
    exists P, Ry. auto.
  - intros (Hm & Hp & Hs & Hr & Hsn & P & Ry & HP & Hev & HR).
    rewrite (verify_finite_R _ _ _ P _ Ry Hm Hp Hs HP Hr Hsn HR).
    rewrite Hev, Z.eqb_refl. reflexivity.
Qed.

(** ** The entropy source *)

(** A run of [sign] without [aux_rand] behaves as the run with the 32-byte
    encoding of one draw as [aux_rand]; it draws at most once, and not at
    all when the message or the key is refused. *)
Theorem sign_entropy_use (msg seckey0 : bytes) (ent : entropy) :
  fst (sign msg seckey0 None ent)
  = fst (sign msg seckey0 (Some (bytes_from_int (urandom ent))) ent)
  /\ (snd (sign msg seckey0 None ent) = ent
      \/ snd (sign msg seckey0 None ent) = S ent)
  /\ (length msg <> 32%nat \/ ~ 1 <= int_from_bytes seckey0 <= n - 1 ->
      snd (sign msg seckey0 None ent) = ent)
  /\ (length msg = 32%nat -> 1 <= int_from_bytes seckey0 <= n - 1 ->
      point_mul (Some G) (int_from_bytes seckey0) <> None ->
      snd (sign msg seckey0 None ent) = S ent).
Proof.
  destruct (Nat.eq_dec (length msg) 32) as [Hm|Hm].
  2:{ rewrite !sign_bad_length by exact Hm. cbn [fst snd].
      repeat split; auto. intros; contradiction. }
  destruct (Z_le_dec 1 (int_from_bytes seckey0)) as [H1|H1].
  2:{ rewrite !sign_bad_key by lia. cbn [fst snd].
      repeat split; auto. intros; lia. }
  destruct (Z_le_dec (int_from_bytes seckey0) (n - 1)) as [H2|H2].
  2:{ rewrite !sign_bad_key by lia. cbn [fst snd].
      repeat split; auto. intros; lia. }
  assert (Hk : 1 <= int_from_bytes seckey0 <= n - 1) by lia.
  destruct (point_mul (Some G) (int_from_bytes seckey0)) as [[x y]|] eqn:HP.
  - rewrite !(sign_run _ _ _ _ _ _ Hm Hk HP). cbv zeta.
    cbn [sign_aux sign_draws].
    destruct (_ =? 0); cbn [fst snd].
    + repeat split; auto; solve [intros [H|H]; [contradiction | tauto]].
    + destruct (point_mul (Some G) (sign_nonce _ _ _ _)) as [[xr yr]|];
        cbn [fst snd]; repeat split; auto;
        solve [intros [H|H]; [contradiction | tauto]].
  - assert (Hs : forall a, sign msg seckey0 a ent = (Raise TypeError, ent)).
    { intros a. unfold sign. rewrite Hm, Nat.eqb_refl. cbn [negb].
      apply key_range_test in Hk. rewrite Hk.
      unfold sign_keypair. rewrite HP. reflexivity. }
    rewrite !Hs. cbn [fst snd]. repeat split; auto.
    intros _ _ H. contradiction.
Qed.

End Outcomes.

(** ** Signing and verifying on a lawful curve *)

Section LawfulRuns.

Context {pkg : Package} {laws : CurveLaws}.

(** The verification equation, for any nonce scalar that is not zero. *)
Lemma lawful_verify (msg : bytes) (d0 k0 x y xr yr : Z) :
  length msg = 32%nat ->
  0 < d0 < n -> 0 < k0 < n ->
  point_mul (Some G) d0 = Some (x, y) ->
  point_mul (Some G) k0 = Some (xr, yr) ->
  let d := if Z.even y then d0 else n - d0 in
  let k := if Z.even yr then k0 else n - k0 in
  let e := int_from_bytes
             (tagged_hash "BIP0340/challenge"
                (bytes_from_int xr ++ bytes_from_int x ++ msg)) mod n in
  let s := (k + e * d) mod n in
  0 <= xr < p /\ 0 <= s < n
  /\ verify msg (bytes_from_int x) (bytes_from_int xr ++ bytes_from_int s)
     = Ok true.
Proof.
  intros Hm Hd0 Hk0 HP HR d k e s.
  pose proof n_pos as Hn. pose proof p_bound as Hpb. pose proof n_bound as Hnb.
  destruct (even_multiple d0 Hd0) as (x' & y' & HP' & Hx & Hd & HPd & Hev).
  rewrite HP in HP'. injection HP' as <- <-.
  destruct (even_multiple k0 Hk0) as (xr' & yr' & HR' & Hxr & Hkk & HRk & Hevr).
  rewrite HR in HR'. injection HR' as <- <-.
  fold d in Hd, HPd. fold k in Hkk, HRk.
  assert (He : 0 <= e < n) by (apply Z.mod_pos_bound; lia).
  assert (Hs : 0 <= s < n) by (apply Z.mod_pos_bound; lia).
  split; [exact Hxr|]. split; [exact Hs|].
  rewrite verify_good_length;
    [| assumption | apply bytes_from_int_length
     | rewrite length_app, !bytes_from_int_length; reflexivity ].
  rewrite (lift_x_even _ _ _ Hd HPd Hev).
  rewrite firstn_bytes_from_int, skipn_bytes_from_int.
  rewrite !int_from_bytes_from_int by lia. cbv zeta.
  destruct (Z.leb_spec p xr) as [E|_]; [lia|].
  destruct (Z.leb_spec n s) as [E|_]; [lia|]. cbn [orb].
  fold e. rewrite <- HPd.
  rewrite G_mul_mul by lia.
  rewrite G_mul_add by (try assumption; apply Z.mod_pos_bound; lia).
  unfold s. rewrite response_scalar by assumption.
  rewrite HRk, Hevr, Z.eqb_refl. reflexivity.
Qed.

(** On a 32-byte message and a key of value in [1, n-1], with [aux_rand]
    supplied or drawn, [sign] ends in one of two ways: [RuntimeError] when
    the nonce scalar is zero, or a signature of 64 bytes with [r < p] and
    [s < n] on which [verify] answers [True]. *)
Theorem sign_outcome
    (msg seckey0 : bytes) (aux_rand : option bytes) (ent : entropy) :
  length msg = 32%nat ->
  1 <= int_from_bytes seckey0 <= n - 1 ->
  (sign_k0 msg (int_from_bytes seckey0) (sign_aux aux_rand ent) = Ok 0
   /\ sign msg seckey0 aux_rand ent
      = (Raise RuntimeError, sign_draws aux_rand ent))
  \/ (exists sig pubkey,
        sign msg seckey0 aux_rand ent = (Ok sig, sign_draws aux_rand ent)
        /\ length sig = 64%nat
        /\ int_from_bytes (firstn 32 sig) < p
        /\ int_from_bytes (skipn 32 sig) < n
        /\ bytes_from_point (point_mul (Some G) (int_from_bytes seckey0))
           = Ok pubkey
        /\ verify msg pubkey sig = Ok true).
Proof.
  intros Hm Hk.
  pose proof n_pos as Hn. pose proof p_bound as Hpb. pose proof n_bound as Hnb.
  assert (Hd0 : 0 < int_from_bytes seckey0 < n) by lia.
  destruct (G_mul_finite _ Hd0) as (x & y & HP & Hx & Hy).
  rewrite (sign_k0_finite _ _ _ _ _ HP).
  rewrite (sign_run _ _ _ _ _ _ Hm Hk HP). cbv zeta.
  set (d := if Z.even y then int_from_bytes seckey0
            else n - int_from_bytes seckey0).
  set (k0 := sign_nonce d (bytes_from_int x) msg (sign_aux aux_rand ent)).
  destruct (Z.eqb_spec k0 0) as [E|E].
  - left. rewrite E. split; reflexivity.
  - right.
    assert (Hk0 : 0 < k0 < n).
    { assert (0 <= k0 < n) by (apply Z.mod_pos_bound; lia). lia. }
    destruct (G_mul_finite k0 Hk0) as (xr & yr & HR & Hxr & Hyr).
    rewrite HR.
    destruct (lawful_verify msg _ _ _ _ _ _ Hm Hd0 Hk0 HP HR)
      as (_ & Hs & Hv).
    fold d in Hs, Hv.
    eexists. exists (bytes_from_int x).
    split; [reflexivity|].
    split; [rewrite length_app, !bytes_from_int_length; reflexivity|].
    rewrite firstn_bytes_from_int, skipn_bytes_from_int.
    rewrite !int_from_bytes_from_int by lia.
    split; [lia|]. split; [lia|]. split; [rewrite HP; reflexivity|]. exact Hv.
Qed.

(** The comment at the head of the module: a secret key and its opposite
    modulo [n] have the same x-only public key.  They also sign alike:
    [sign] returns the same result for both, on every message. *)
Theorem opposite_secret_keys (seckey0 seckey0' : bytes) :
  1 <= int_from_bytes seckey0 <= n - 1 ->
  int_from_bytes seckey0' = n - int_from_bytes seckey0 ->
  exists pubkey,
    bytes_from_point (point_mul (Some G) (int_from_bytes seckey0))
    = Ok pubkey
    /\ bytes_from_point (point_mul (Some G) (int_from_bytes seckey0'))
       = Ok pubkey
    /\ forall msg aux_rand ent,
         sign msg seckey0' aux_rand ent = sign msg seckey0 aux_rand ent.
Proof.
  intros Hk Hopp.
  assert (Hd0 : 0 < int_from_bytes seckey0 < n) by lia.
  destruct (G_mul_finite _ Hd0) as (x & y & HP & Hx & Hy).
  pose proof (G_mul_opp _ _ _ Hd0 HP) as HP'.
  rewrite <- Hopp in HP'.
  exists (bytes_from_int x). rewrite HP, HP'.
  split; [reflexivity|]. split; [reflexivity|].
  intros msg aux_rand ent.
  destruct (Nat.eq_dec (length msg) 32) as [Hm|Hm];
    [|rewrite !sign_bad_length by exact Hm; reflexivity].
  assert (Hk' : 1 <= int_from_bytes seckey0' <= n - 1) by lia.
  rewrite (sign_run _ _ _ _ _ _ Hm Hk HP).
  rewrite (sign_run _ _ _ _ _ _ Hm Hk' HP'). cbv zeta.
  rewrite even_flip, Hopp.
  replace (n - (n - int_from_bytes seckey0)) with (int_from_bytes seckey0)
    by ring.
  destruct (Z.even y); reflexivity.
Qed.

(** *** The bcrypto 4.10 variant *)

Context {legacy_laws : LegacyLaws}.

Lemma quad_multiple (k : Z) :
  0 < k < n ->
  exists x y,
    point_mul (Some G) k = Some (x, y)
    /\ 0 <= x < p
    /\ 0 < (if is_quad y then k else n - k) < n
    /\ point_mul (Some G) (if is_quad y then k else n - k)
       = Some (x, if is_quad y then y else p - y)
    /\ is_quad (if is_quad y then y else p - y) = true.
Proof.
  intros Hk. destruct (G_mul_finite k Hk) as (x & y & HP & Hx & Hy).
  exists x, y. split; [exact HP|]. split; [exact Hx|].
  destruct (is_quad y) eqn:Eq.
  - repeat split; try lia; assumption.
  - repeat split; try lia.
    + apply G_mul_opp; assumption.
    + rewrite (is_quad_opp _ _ _ Hk HP), Eq. reflexivity.
Qed.

(** On a 32-byte message hash and a key of value in [1, n-1],
    [bcrypto410_sign] ends in one of two ways: [RuntimeError] when the
    nonce scalar is zero, or a signature of 64 bytes with [r < p] and
    [s < n] on which [bcrypto410_verify] answers [True] for the public key
    in the encoding the signer hashed, [encoded_from_point(G * seckey)]. *)
Theorem bcrypto410_sign_outcome (msg seckey0 : bytes) (ent : entropy) :
  length msg = 32%nat ->
  1 <= int_from_bytes seckey0 <= n - 1 ->
  (bcrypto410_k0 msg seckey0 = 0
   /\ bcrypto410_sign msg seckey0 ent = (Raise RuntimeError, ent))
  \/ (exists sig,
        bcrypto410_sign msg seckey0 ent = (Ok sig, ent)
        /\ length sig = 64%nat
        /\ int_from_bytes (firstn 32 sig) < p
        /\ int_from_bytes (skipn 32 sig) < n
        /\ bcrypto410_verify msg
             (encoded_from_point
                (point_mul (Some G) (int_from_bytes seckey0))) sig
           = Ok true).
Proof.
  intros Hm Hk.
  pose proof n_pos as Hn. pose proof p_bound as Hpb. pose proof n_bound as Hnb.
  rewrite (bcrypto410_sign_run _ _ _ Hm Hk). cbv zeta.
  set (d := int_from_bytes seckey0) in *.
  set (k0 := bcrypto410_k0 msg seckey0).
  destruct (Z.eqb_spec k0 0) as [E|E]; [left; split; [exact E | reflexivity]|].
  right.
  assert (Hk0 : 0 < k0 < n).
  { assert (0 <= k0 < n) by (apply Z.mod_pos_bound; lia). lia. }
  destruct (quad_multiple k0 Hk0) as (xr & yr & HR & Hxr & Hkk & HRk & Hq).
  rewrite HR.
  set (k := if is_quad yr then k0 else n - k0) in *.
  set (pubkey := encoded_from_point (point_mul (Some G) d)).
  set (e := int_from_bytes
              (hash_sha256 (bytes_from_int xr ++ pubkey ++ msg)) mod n).
  assert (He : 0 <= e < n) by (apply Z.mod_pos_bound; lia).
  set (s := (k + e * d) mod n).
  assert (Hs : 0 <= s < n) by (apply Z.mod_pos_bound; lia).
  exists (bytes_from_int xr ++ bytes_from_int s).
  split; [reflexivity|].
  split; [rewrite length_app, !bytes_from_int_length; reflexivity|].
  rewrite firstn_bytes_from_int, skipn_bytes_from_int.
  rewrite !int_from_bytes_from_int by lia.
  split; [lia|]. split; [lia|].
  rewrite bcrypto410_verify_good_length;
    [| assumption
     | rewrite length_app, !bytes_from_int_length; reflexivity ].
  assert (Hd0 : 0 < d < n) by lia.
  unfold pubkey at 1. rewrite (decode_encoded d Hd0).
  rewrite firstn_bytes_from_int, skipn_bytes_from_int.
  rewrite !int_from_bytes_from_int by lia. cbv zeta.
  destruct (Z.leb_spec p xr) as [E1|_]; [lia|].
  destruct (Z.leb_spec n s) as [E1|_]; [lia|]. cbn [orb].
  fold e.
  rewrite G_mul_mul by lia.
  rewrite G_mul_add by (try assumption; apply Z.mod_pos_bound; lia).
  unfold s. rewrite response_scalar by assumption.
  rewrite HRk, Hq, Z.eqb_refl. reflexivity.
Qed.

End LawfulRuns.

Lemma toy_decode (draws : nat -> Z) (d : Z) :
  0 < d < 31 -> check_decode (pkg := toy draws) d = true.
Proof.
  intros Hd. apply (Zrange_forallb _ 1 30); [vm_compute; reflexivity | lia].
Qed.

Lemma toy_quad (draws : nat -> Z) (k : Z) :
  0 < k < 31 -> check_quad (pkg := toy draws) k = true.
Proof.
  intros Hk. apply (Zrange_forallb _ 1 30); [vm_compute; reflexivity | lia].
Qed.

Lemma toy_legacy_laws (draws : nat -> Z) : LegacyLaws (pkg := toy draws).
Proof.
  constructor.
  - intros d Hd. change (@n (toy draws)) with 31 in Hd.
    pose proof (toy_decode draws d Hd) as H. unfold check_decode in H.
    destruct (PublicKey_decode _) as [Q|e]; [|discriminate H].
    apply point_eqb_eq in H. rewrite H. reflexivity.
  - intros k x y Hk HP. change (@n (toy draws)) with 31 in Hk.
    pose proof (toy_quad draws k Hk) as H. unfold check_quad in H.
    rewrite HP in H. apply Bool.eqb_prop in H. exact H.
Qed.

(** ** The statements beyond the claims at concrete inputs *)

Lemma bytes_from_point_from_bytes_witness :
  bytes_from_point (point_from_bytes (pkg := secp256k1 (fun _ => 0)) G_xonly)
  = Ok G_xonly.
Proof.
  apply (bytes_from_point_from_bytes (pkg := secp256k1 (fun _ => 0)) G_xonly).
  - vm_compute. reflexivity.
  - vm_compute. intro H; discriminate H.
Defined.

Lemma point_from_bytes_from_point_witness :
  length G_xonly = 32%nat
  /\ (forall x' y',
        point_from_bytes (pkg := secp256k1 (fun _ => 0)) G_xonly
        = Some (x', y') ->
        x' = fst secp256k1_G /\ y' <> 0
        /\ @y_from_x (secp256k1 (fun _ => 0)) (fst secp256k1_G) = Some y')
  /\ (point_from_bytes (pkg := secp256k1 (fun _ => 0)) G_xonly = None <->
        @y_from_x (secp256k1 (fun _ => 0)) (fst secp256k1_G) = None
        \/ @y_from_x (secp256k1 (fun _ => 0)) (fst secp256k1_G) = Some 0).
Proof.
  apply (point_from_bytes_from_point (pkg := secp256k1 (fun _ => 0))
           (fst secp256k1_G) (snd secp256k1_G) G_xonly).
  - vm_compute. split; [intro H; discriminate H | reflexivity].
  - reflexivity.
Defined.

Lemma verify_lift_x_fails_witness :
  verify (pkg := secp256k1 (fun _ => 0)) zeros32 off_curve_pubkey vector0_sig
  = Ok false.
Proof.
  apply (verify_lift_x_fails (pkg := secp256k1 (fun _ => 0))
           zeros32 off_curve_pubkey vector0_sig).
  - reflexivity.
  - vm_compute. reflexivity.
  - vm_compute. reflexivity.
  - vm_compute. reflexivity.
Defined.

Lemma sign_outcome_witness :
  (sign_k0 (pkg := toy (fun _ => 7)) zeros32 (int_from_bytes toy_seckey)
     (sign_aux (pkg := toy (fun _ => 7)) None O) = Ok 0
   /\ sign (pkg := toy (fun _ => 7)) zeros32 toy_seckey None O
      = (Raise RuntimeError, sign_draws None O))
  \/ (exists sig pubkey,
        sign (pkg := toy (fun _ => 7)) zeros32 toy_seckey None O
        = (Ok sig, sign_draws None O)
        /\ length sig = 64%nat
        /\ int_from_bytes (firstn 32 sig) < @p (toy (fun _ => 7))
        /\ int_from_bytes (skipn 32 sig) < @n (toy (fun _ => 7))
        /\ bytes_from_point
             (@point_mul (toy (fun _ => 7)) (Some (@G (toy (fun _ => 7))))
                (int_from_bytes toy_seckey))
           = Ok pubkey
        /\ verify (pkg := toy (fun _ => 7)) zeros32 pubkey sig = Ok true).
Proof.
  apply (sign_outcome (pkg := toy (fun _ => 7)) (laws := toy_laws (fun _ => 7))
           zeros32 toy_seckey None O).
  - reflexivity.
  - vm_compute. split; intro H; discriminate H.
Defined.

Lemma opposite_secret_keys_witness :
  exists pubkey,
    bytes_from_point
      (@point_mul (toy (fun _ => 0)) (Some (@G (toy (fun _ => 0))))
         (int_from_bytes toy_seckey))
    = Ok pubkey
    /\ bytes_from_point
         (@point_mul (toy (fun _ => 0)) (Some (@G (toy (fun _ => 0))))
            (int_from_bytes toy_seckey_opp))
       = Ok pubkey
    /\ forall msg aux_rand ent,
         sign (pkg := toy (fun _ => 0)) msg toy_seckey_opp aux_rand ent
         = sign (pkg := toy (fun _ => 0)) msg toy_seckey aux_rand ent.
Proof.
  apply (opposite_secret_keys (pkg := toy (fun _ => 0))
           (laws := toy_laws (fun _ => 0)) toy_seckey toy_seckey_opp).
  - vm_compute. split; intro H; discriminate H.
  - vm_compute. reflexivity.
Defined.

Lemma bcrypto410_sign_outcome_witness :
  (bcrypto410_k0 (pkg := toy (fun _ => 0)) zeros32 toy_seckey = 0
   /\ bcrypto410_sign (pkg := toy (fun _ => 0)) zeros32 toy_seckey O
      = (Raise RuntimeError, O))
  \/ (exists sig,
        bcrypto410_sign (pkg := toy (fun _ => 0)) zeros32 toy_seckey O
        = (Ok sig, O)
        /\ length sig = 64%nat
        /\ int_from_bytes (firstn 32 sig) < @p (toy (fun _ => 0))
        /\ int_from_bytes (skipn 32 sig) < @n (toy (fun _ => 0))
        /\ bcrypto410_verify (pkg := toy (fun _ => 0)) zeros32
             (@encoded_from_point (toy (fun _ => 0))
                (@point_mul (toy (fun _ => 0)) (Some (@G (toy (fun _ => 0))))
                   (int_from_bytes toy_seckey))) sig
           = Ok true).
Proof.
  apply (bcrypto410_sign_outcome (pkg := toy (fun _ => 0))
           (laws := toy_laws (fun _ => 0))
           (legacy_laws := toy_legacy_laws (fun _ => 0))
           zeros32 toy_seckey O).
  - reflexivity.
  - vm_compute. split; intro H; discriminate H.
Defined.
